(** * Subscription-Manager: timeline geometry and renewal projection

    A shallow embedding of the date arithmetic of [utils/dateHelpers.ts]
    and of the bar computation of [components/Timeline.tsx]
    ([SubscriptionRow], [DateRangeModal]), with the properties the
    specification states about them.

    Modelling conventions.
    - A JavaScript [Date] is represented by its local calendar fields
      (year, 0-based month, day of month, millisecond of the day).  The
      local time zone is taken to be UTC without daylight saving, so the
      time value of a date is [getTime] below (ECMA-262 [MakeDay] /
      [MakeDate]).  Relational operators on dates compare time values, as
      in JavaScript.  The "Invalid Date" (NaN time value) and the
      +-8.64e15 ms range limit are not represented.  The zone shows in
      one place, where the date-range dialog reads a date-only text as
      midnight UTC: [DateRangeModal.firstOfMonth] is that date in UTC,
      [DateRangeModal.firstOfMonthLocal] the same instant in a zone at a
      fixed offset from UTC.
    - [number] values that hold day counts are integers ([Z]); percentages
      are exact rationals ([Q]) instead of IEEE doubles, so rounding is
      abstracted away.  In [Q] a division by zero yields 0 where
      JavaScript yields NaN or Infinity, so the statements about the
      value of a percentage assume that [totalDays] is positive, or at
      least not 0.
    - [date-fns] is an external library; [addMonths], [subMonths],
      [startOfMonth] and [differenceInDays] follow its implementation. *)

From Stdlib Require Import ZArith QArith Qminmax Qround Lia Lqa List Bool String.
Import ListNotations.
Open Scope Z_scope.

(* ================================================================= *)
(** ** JavaScript dates and the date-fns functions in use             *)
(* ================================================================= *)

Module DateFns.

Record Date : Type := mkDate {
  getFullYear : Z;   (* calendar year *)
  getMonth    : Z;   (* 0 = January ... 11 = December *)
  getDate     : Z;   (* day of the month, from 1 *)
  msOfDay     : Z    (* milliseconds since local midnight *)
}.

Definition msPerDay : Z := 86400000.

(** Calendar date at midnight, with the month written 1..12. *)
Definition ymd (y m d : Z) : Date := mkDate y (m - 1) d 0.

Definition isLeapYear (y : Z) : bool :=
  (y mod 4 =? 0) && (negb (y mod 100 =? 0) || (y mod 400 =? 0)).

Definition getDaysInMonth (y m : Z) : Z :=
  match m with
  | 1 => if isLeapYear y then 29 else 28
  | 3 | 5 | 8 | 10 => 30
  | _ => 31
  end.

(** Days of the year that precede the first day of month [m]. *)
Definition daysBeforeMonth (leap : bool) (m : Z) : Z :=
  let l := if leap then 1 else 0 in
  match m with
  | 0 => 0
  | 1 => 31
  | 2 => 59 + l
  | 3 => 90 + l
  | 4 => 120 + l
  | 5 => 151 + l
  | 6 => 181 + l
  | 7 => 212 + l
  | 8 => 243 + l
  | 9 => 273 + l
  | 10 => 304 + l
  | _ => 334 + l
  end.

(** ECMA-262 [DayFromYear]: day number of 1 January of year [y],
    counted from 1 January 1970. *)
Definition dayFromYear (y : Z) : Z :=
  365 * (y - 1970) + (y - 1969) / 4 - (y - 1901) / 100 + (y - 1601) / 400.

(** ECMA-262 [MakeDay] on normalised fields. *)
Definition dayNumber (d : Date) : Z :=
  dayFromYear (getFullYear d)
  + daysBeforeMonth (isLeapYear (getFullYear d)) (getMonth d)
  + (getDate d - 1).

(** The time value: milliseconds since the epoch. *)
Definition getTime (d : Date) : Z := dayNumber d * msPerDay + msOfDay d.

(** [a < b], [a <= b], [a > b] on [Date] objects compare time values. *)
Definition date_ltb (a b : Date) : bool := getTime a <? getTime b.
Definition date_leb (a b : Date) : bool := getTime a <=? getTime b.
Definition date_gtb (a b : Date) : bool := getTime b <? getTime a.

(** The records that denote a calendar date. *)
Definition wfDateb (d : Date) : bool :=
  (0 <=? getMonth d) && (getMonth d <? 12)
  && (1 <=? getDate d)
  && (getDate d <=? getDaysInMonth (getFullYear d) (getMonth d))
  && (0 <=? msOfDay d) && (msOfDay d <? msPerDay).

Definition wfDate (d : Date) : Prop := wfDateb d = true.

Definition wfOption (o : option Date) : Prop :=
  match o with Some e => wfDate e | None => True end.

(** [isValid]: every modelled date has a numeric time value. *)
Definition isValid (_ : Date) : bool := true.

(** date-fns [addMonths]: move to the target month keeping the day of
    the month, or its last day when the month is shorter; the time of
    day is kept. *)
Definition addMonths (d : Date) (amount : Z) : Date :=
  if amount =? 0 then d
  else
    let mi := getFullYear d * 12 + getMonth d + amount in
    let y' := mi / 12 in
    let m' := mi mod 12 in
    let daysInMonth := getDaysInMonth y' m' in
    if getDate d >=? daysInMonth
    then mkDate y' m' daysInMonth (msOfDay d)
    else mkDate y' m' (getDate d) (msOfDay d).

Definition subMonths (d : Date) (amount : Z) : Date := addMonths d (- amount).

Definition startOfMonth (d : Date) : Date :=
  mkDate (getFullYear d) (getMonth d) 1 0.

(** date-fns [differenceInDays]: the number of full days between two
    dates.  [sign] is [compareLocalAsc]; [difference] is the absolute
    calendar-day difference; after moving [dateLeft] by that many days
    both dates fall on the same day, so the second comparison is one of
    the times of day. *)
Definition differenceInDays (dateLeft dateRight : Date) : Z :=
  let sign := Z.sgn (getTime dateLeft - getTime dateRight) in
  let difference := Z.abs (dayNumber dateLeft - dayNumber dateRight) in
  let isLastDayNotFull :=
    if Z.sgn (msOfDay dateLeft - msOfDay dateRight) =? - sign then 1 else 0 in
  sign * (difference - isLastDayNotFull).

(** Day number of the first day of the month with index
    [12 * year + month]; used to compare dates month by month. *)
Definition monthStart (mi : Z) : Z :=
  dayFromYear (mi / 12) + daysBeforeMonth (isLeapYear (mi / 12)) (mi mod 12).

End DateFns.

(* ================================================================= *)
(** ** utils/dateHelpers.ts                                           *)
(* ================================================================= *)

Module DateHelpers.
Import DateFns.

(** How a call ends.  The month loop of [getTimelineRange] is a plain
    [while]; it is run with a step budget and [OutOfFuel] reports that
    the budget was too small.  [Throws] is the outcome the
    specification names for an inverted range. *)
Inductive JsError : Type := InvalidRangeError | InvalidDateError.

Inductive outcome (A : Type) : Type :=
| Returns (a : A)
| Throws (e : JsError)
| OutOfFuel.
Arguments Returns {A} a.
Arguments Throws {A} e.
Arguments OutOfFuel {A}.

Record TimelineRange : Type := mkRange {
  start  : Date;
  end_   : Date;
  months : list Date
}.

(** [while (current <= end) { months.push(current);
                              current = addMonths(current, 1); }] *)
Fixpoint monthsLoop (fuel : nat) (current endD : Date) (acc : list Date)
  : option (list Date) :=
  match fuel with
  | O => None
  | S fuel' =>
      if date_leb current endD
      then monthsLoop fuel' (addMonths current 1) endD (acc ++ [current])
      else Some acc
  end.

(** [getTimelineRange(customStart?, customEnd?)]; [now] is the value of
    [new Date()] read at the top of the function. *)
Definition getTimelineRange (fuel : nat) (now : Date)
    (customStart customEnd : option Date) : outcome TimelineRange :=
  let start :=
    match customStart with
    | Some c => startOfMonth c
    | None => startOfMonth (subMonths now 1)
    end in
  let endD :=
    match customEnd with
    | Some c => startOfMonth c
    | None => startOfMonth (addMonths now 13)
    end in
  match monthsLoop fuel start endD [] with
  | Some months => Returns (mkRange start endD months)
  | None => OutOfFuel
  end.

(** [getPositionPercentage(date, timelineStart, totalDays)] *)
Definition getPositionPercentage (date timelineStart : Date) (totalDays : Z) : Q :=
  if date_ltb date timelineStart then 0%Q
  else
    let diffDays := differenceInDays date timelineStart in
    ((inject_Z diffDays / inject_Z totalDays) * 100)%Q.

(** [getWidthPercentage(start, end, timelineStart, timelineEnd, totalDays)] *)
Definition getWidthPercentage (start : Date) (endD : option Date)
    (timelineStart timelineEnd : Date) (totalDays : Z) : Q :=
  let effectiveStart :=
    if date_ltb start timelineStart then timelineStart else start in
  let effectiveEnd :=
    match endD with
    | None => timelineEnd
    | Some e => if date_gtb e timelineEnd then timelineEnd else e
    end in
  if date_ltb effectiveEnd effectiveStart then 0%Q
  else
    let durationDays := differenceInDays effectiveEnd effectiveStart in
    ((inject_Z (durationDays + 1) / inject_Z totalDays) * 100)%Q.

End DateHelpers.

(* ================================================================= *)
(** ** components/Timeline.tsx: SubscriptionRow                       *)
(* ================================================================= *)

Module Timeline.
Import DateFns DateHelpers.

Inductive BillingCycle : Type := MONTHLY | YEARLY.

Inductive ItemType : Type := service | category.

Record Subscription : Type := mkSubscription {
  id        : string;
  name      : string;
  amount    : Z;
  currency  : string;
  cycle     : BillingCycle;
  startDate : Date;
  endDate   : option Date;     (* null or undefined: ongoing *)
  color     : string;
  icon      : option string;
  autoRenew : bool;
  order     : Z;
  type      : ItemType
}.

(** A subscription whose dates are calendar dates and whose end date,
    when there is one, is not before its start date. *)
Definition wellFormed (sub : Subscription) : Prop :=
  wfDate (startDate sub)
  /\ match endDate sub with
     | Some e => wfDate e /\ getTime (startDate sub) <= getTime e
     | None => True
     end.

(** [sub.cycle === BillingCycle.MONTHLY ? addMonths(d, 1) : addMonths(d, 12)] *)
Definition advance (c : BillingCycle) (d : Date) : Date :=
  match c with
  | MONTHLY => addMonths d 1
  | YEARLY => addMonths d 12
  end.

(** The number of months one cycle adds. *)
Definition period (c : BillingCycle) : Z :=
  match c with MONTHLY => 1 | YEARLY => 12 end.

(** A [while] loop run with a step budget. *)
Fixpoint while {S : Type} (cond : S -> bool) (body : S -> S)
    (fuel : nat) (s : S) : option S :=
  match fuel with
  | O => None
  | Datatypes.S fuel' =>
      if cond s then while cond body fuel' (body s) else Some s
  end.

(** The two variables the renewal loop updates. *)
Record LoopState : Type := mkLoop { nextRenewal : Date; loopCount : Z }.

Definition MAX_LOOPS : Z := 1000.

(** [nextRenewal <= today && loopCount < MAX_LOOPS] *)
Definition loopCond (today : Date) (s : LoopState) : bool :=
  date_leb (nextRenewal s) today && (loopCount s <? MAX_LOOPS).

Definition loopBody (c : BillingCycle) (s : LoopState) : LoopState :=
  mkLoop (advance c (nextRenewal s)) (loopCount s + 1).

Definition renewalLoop (fuel : nat) (startD : Date) (c : BillingCycle)
    (today : Date) : option LoopState :=
  while (loopCond today) (loopBody c) fuel (mkLoop startD 0).

(** A budget the guard [loopCount < MAX_LOOPS] never exhausts
    (lemma [while_renewal]). *)
Definition loopFuel : nat := Datatypes.S (Z.to_nat MAX_LOOPS).

(** Lines 79-99: the next renewal date ([nextRenewal] after the [if]).
    [today] is the [new Date()] of line 77.  The [None] branch is never
    taken: the loop ends within [loopFuel] steps. *)
Definition projectNextRenewal (startD : Date) (c : BillingCycle) (today : Date)
  : Date :=
  if isValid startD then
    if date_leb startD today then
      match renewalLoop loopFuel startD c today with
      | Some s => nextRenewal s
      | None => startD
      end
    else advance c startD
  else startD.

(** Whether the loop was stopped by its counter: [loopCount] had reached
    [MAX_LOOPS] when it ended. *)
Definition capReached (startD : Date) (c : BillingCycle) (today : Date) : bool :=
  match renewalLoop loopFuel startD c today with
  | Some s => MAX_LOOPS <=? loopCount s
  | None => true
  end.

Inductive BarType : Type := active | future.

(** What [renderBar] puts on the screen: the [left] and [width] of the
    style, the kind of bar and which corners are flattened.  Colour,
    opacity and shadow are left out. *)
Record Bar : Type := mkBar {
  barType   : BarType;
  barLeft   : Q;
  barWidth  : Q;
  flatLeft  : bool;
  flatRight : bool
}.

Definition isActive (t : BarType) : bool :=
  match t with active => true | future => false end.

Section SubscriptionRow.
(** The props and the clock. *)
Variables (sub : Subscription) (start endD : Date) (totalDays : Z).
Variable today : Date.

Definition rowLeft : Q :=
  getPositionPercentage (startDate sub) start totalDays.
Definition rowWidth : Q :=
  getWidthPercentage (startDate sub) (endDate sub) start endD totalDays.

Definition rowNextRenewal : Date :=
  projectNextRenewal (startDate sub) (cycle sub) today.

Definition visualEndDate : option Date :=
  if autoRenew sub then Some endD
  else
    match endDate sub with
    | None => Some (if date_gtb rowNextRenewal endD then rowNextRenewal else endD)
    | Some e => Some e
    end.

Definition visualWidth : Q :=
  getWidthPercentage (startDate sub) visualEndDate start endD totalDays.

Definition solidEndDate : Date :=
  match endDate sub with
  | Some e => e
  | None => rowNextRenewal
  end.

Definition solidEndPct : Q :=
  getPositionPercentage solidEndDate start totalDays.

Definition barStartPct : Q := rowLeft.
Definition barEndPct : Q := (barStartPct + visualWidth)%Q.
Definition splitPct : Q := Qmin solidEndPct barEndPct.

Definition hasActive : bool := negb (Qle_bool splitPct barStartPct).
Definition hasFuture : bool :=
  autoRenew sub && negb (Qle_bool barEndPct splitPct).

Definition renderBar (startP endP : Q) (t : BarType) : option Bar :=
  if Qle_bool endP (startP + (1 # 1000)) then None
  else
    let w := (endP - startP)%Q in
    Some (mkBar t startP w
            (negb (isActive t) && hasActive)
            (isActive t && hasFuture)).

(** The fragment the row returns: both calls, [null] results dropped. *)
Definition renderedBars : list Bar :=
  match renderBar barStartPct splitPct active with
  | Some b => [b]
  | None => []
  end
  ++
  match renderBar splitPct barEndPct future with
  | Some b => [b]
  | None => []
  end.
End SubscriptionRow.

End Timeline.

(* ================================================================= *)
(** ** components/DateRangeModal.tsx: handleSubmit                    *)
(* ================================================================= *)

Module DateRangeModal.
Import DateFns.

(** The value of an [<input type="month">]: empty, or a year and a
    month 1..12 (the text [yyyy-MM]). *)
Definition MonthValue : Type := option (Z * Z).

Inductive Effect : Type :=
| preventDefault
| alert (msg : string)
| onSave (newStart newEnd : Date)
| onClose.

(** [new Date(str + '-01')]: midnight UTC of the first of the month,
    which is local midnight in the zone UTC ([firstOfMonthLocal] below
    is the same date in the other zones). *)
Definition firstOfMonth (v : Z * Z) : Date := ymd (fst v) (snd v) 1.

Definition handleSubmit (startStr endStr : MonthValue) : list Effect :=
  preventDefault ::
  match startStr, endStr with
  | Some s, Some e =>
      let newStart := firstOfMonth s in
      let newEnd := firstOfMonth e in
      if date_ltb newEnd newStart
      then [alert "End date must be after start date"]
      else [onSave newStart newEnd; onClose]
  | _, _ => [onClose]
  end.

(** The same dialog in another time zone.  [new Date(str + '-01')]
    reads a date-only text, which JavaScript takes as midnight UTC.  In
    a zone whose clock is [tz] milliseconds ahead of UTC (behind it when
    [tz] is negative; less than a day either way) the local fields of
    that instant are the first of the month at time of day [tz] and,
    west of Greenwich, the last day of the month before at
    [msPerDay + tz].  [firstOfMonth] above is the case [tz = 0]. *)
Definition firstOfMonthLocal (tz : Z) (v : Z * Z) : Date :=
  if 0 <=? tz then mkDate (fst v) (snd v - 1) 1 tz
  else
    let mi := 12 * fst v + (snd v - 1) - 1 in
    mkDate (mi / 12) (mi mod 12) (getDaysInMonth (mi / 12) (mi mod 12))
      (msPerDay + tz).

Definition handleSubmitIn (tz : Z) (startStr endStr : MonthValue) : list Effect :=
  preventDefault ::
  match startStr, endStr with
  | Some s, Some e =>
      let newStart := firstOfMonthLocal tz s in
      let newEnd := firstOfMonthLocal tz e in
      if date_ltb newEnd newStart
      then [alert "End date must be after start date"]
      else [onSave newStart newEnd; onClose]
  | _, _ => [onClose]
  end.

(** The month, counted from January of year 0, that a month value
    names, and the number of months by which the local date of
    [firstOfMonthLocal] falls before it. *)
Definition monthValueIndex (v : Z * Z) : Z := 12 * fst v + (snd v - 1).

Definition zoneShift (tz : Z) : Z := if 0 <=? tz then 0 else -1.

End DateRangeModal.

(* ================================================================= *)
(** ** The specification's wording of the geometry contracts          *)
(* ================================================================= *)

Module Spec.
Import DateFns DateHelpers Timeline.

(** The later and the earlier of two dates. *)
Definition date_max (a b : Date) : Date := if date_ltb a b then b else a.
Definition date_min (a b : Date) : Date := if date_ltb b a then b else a.

Definition daysBetween (a b : Date) : Z := differenceInDays a b.

(** Section 4.2, [widthOf]: [effectiveStart = max(start, windowStart)],
    [effectiveEnd = min(end ?? windowEnd, windowEnd)]; width 0 when
    [effectiveEnd < effectiveStart], otherwise
    [((daysBetween(effectiveEnd, effectiveStart) + 1) / totalWindowDays) * 100]. *)
Definition widthOf (start : Date) (endD : option Date)
    (windowStart windowEnd : Date) (totalWindowDays : Z) : Q :=
  let effectiveStart := date_max start windowStart in
  let effectiveEnd :=
    date_min (match endD with Some e => e | None => windowEnd end) windowEnd in
  if date_ltb effectiveEnd effectiveStart then 0%Q
  else ((inject_Z (daysBetween effectiveEnd effectiveStart + 1)
         / inject_Z totalWindowDays) * 100)%Q.

(** Section 4.2, [projectNextRenewal]: the date reached from [d] by
    adding one cycle period [n] times in a row. *)
Fixpoint renewals (c : BillingCycle) (n : nat) (d : Date) : Date :=
  match n with
  | O => d
  | S n' => advance c (renewals c n' d)
  end.

(** Section 4.2, "one cycle period", written out: one calendar month
    for MONTHLY, twelve calendar months for YEARLY. *)
Definition cyclePeriodMonths (c : BillingCycle) : Z :=
  match c with
  | MONTHLY => 1
  | YEARLY => 12
  end.

(** The sequence startDate, startDate + 1 period, startDate + 2
    periods, ... of section 4.2, built with [addMonths] and the period
    above, one period at a time (the day of the month is clamped at
    every step). *)
Fixpoint plusPeriods (c : BillingCycle) (n : nat) (startDate : Date) : Date :=
  match n with
  | O => startDate
  | S n' => addMonths (plusPeriods c n' startDate) (cyclePeriodMonths c)
  end.

Section SplitBar.
Variables (sub : Subscription) (windowStart windowEnd : Date).
Variables (totalWindowDays : Z) (today : Date).

Definition positionOf (d : Date) : Q :=
  getPositionPercentage d windowStart totalWindowDays.

(** Section 4.2, [splitBar], first three steps. *)
Definition visualEnd : Date :=
  if autoRenew sub then windowEnd
  else
    match endDate sub with
    | None =>
        date_max windowEnd
          (projectNextRenewal (startDate sub) (cycle sub) today)
    | Some e => e
    end.

Definition solidEnd : Date :=
  match endDate sub with
  | Some e => e
  | None => projectNextRenewal (startDate sub) (cycle sub) today
  end.

Definition barStart : Q := positionOf (startDate sub).
Definition barEnd : Q :=
  (barStart
   + widthOf (startDate sub) (Some visualEnd)
       windowStart windowEnd totalWindowDays)%Q.
Definition splitPoint : Q := Qmin (positionOf solidEnd) barEnd.
End SplitBar.

End Spec.

(* ================================================================= *)
(** ** The scenarios of the specification (section 8)                 *)
(* ================================================================= *)

Module Scenarios.
Import DateFns Timeline.

(** Window 2024-01-01 to 2025-03-01. *)
Definition scenarioStart : Date := ymd 2024 1 1.
Definition scenarioEnd : Date := ymd 2025 3 1.
Definition scenarioToday : Date := mkDate 2024 7 15 43200000.

(** Scenario B: yearly, 2024-06-01 to 2024-12-01, no auto-renewal. *)
Definition scenarioB : Subscription :=
  mkSubscription "b" "Scenario B" 120000 "KRW" YEARLY
    (ymd 2024 6 1) (Some (ymd 2024 12 1)) "#3B82F6" None false 0 service.

(** A subscription that starts before the window and ends after it. *)
Definition spanning : Subscription :=
  mkSubscription "s" "Spanning" 10000 "KRW" MONTHLY
    (ymd 2023 6 1) (Some (ymd 2026 1 1)) "#3B82F6" None false 1 service.

End Scenarios.

(* ================================================================= *)
(** ** components/Summary.tsx: the dashboard totals                   *)
(* ================================================================= *)

Module Summary.
Import DateFns Timeline.

(** The three counters the [forEach] callback updates. *)
Record Totals : Type := mkTotals {
  totalMonthly : Q;
  totalYearly  : Q;
  serviceCount : Z
}.

(** [!sub.endDate || sub.endDate > new Date()] *)
Definition isActiveAt (now : Date) (sub : Subscription) : bool :=
  match endDate sub with
  | None => true
  | Some e => date_gtb e now
  end.

(** What one subscription contributes to a month and to a year. *)
Definition monthlyAmount (sub : Subscription) : Q :=
  match cycle sub with
  | MONTHLY => inject_Z (amount sub)
  | YEARLY => (inject_Z (amount sub) / 12)%Q
  end.

Definition yearlyAmount (sub : Subscription) : Q :=
  match cycle sub with
  | MONTHLY => (inject_Z (amount sub) * 12)%Q
  | YEARLY => inject_Z (amount sub)
  end.

(** The body of [subscriptions.forEach(sub => ...)]; [now] stands for
    the [new Date()] of the activity test. *)
Definition statsStep (now : Date) (acc : Totals) (sub : Subscription) : Totals :=
  match type sub with
  | category => acc
  | service =>
      let serviceCount' := serviceCount acc + 1 in
      if isActiveAt now sub
      then mkTotals (totalMonthly acc + monthlyAmount sub)%Q
             (totalYearly acc + yearlyAmount sub)%Q serviceCount'
      else mkTotals (totalMonthly acc) (totalYearly acc) serviceCount'
  end.

Record Stats : Type := mkStats { count : Z; monthly : Q; yearly : Q }.

Definition stats (now : Date) (subscriptions : list Subscription) : Stats :=
  let acc := fold_left (statsStep now) subscriptions (mkTotals 0 0 0) in
  mkStats (serviceCount acc) (totalMonthly acc) (totalYearly acc).

(** The items that count as services, and those whose amounts enter
    the totals at [now]. *)
Definition isService (sub : Subscription) : bool :=
  match type sub with service => true | category => false end.

Definition contributes (now : Date) (sub : Subscription) : bool :=
  isService sub && isActiveAt now sub.

Definition sumQ (l : list Q) : Q := fold_right Qplus 0%Q l.

(** [formatWon]: the number that is printed,
    [Math.ceil(amount / 100) * 100], before [toLocaleString]. *)
Definition formatWonValue (amount : Q) : Z := Qceiling (amount / 100) * 100.

End Summary.

(* ================================================================= *)
(** ** components/Timeline.tsx: header groups and the sidebar width    *)
(* ================================================================= *)

Module TimelineHeader.
Import DateFns DateHelpers.

(** [{ year, count }]; the year is the number that [format(month, 'yyyy')]
    prints. *)
Record YearGroup : Type := mkGroup { year : Z; groupCount : Z }.

Record GroupState : Type := mkGroupState {
  groups       : list YearGroup;
  currentYear  : Z;
  currentCount : Z
}.

(** The body of [months.forEach(month => ...)]. *)
Definition groupStep (st : GroupState) (month : Date) : GroupState :=
  let y := getFullYear month in
  if y =? currentYear st
  then mkGroupState (groups st) (currentYear st) (currentCount st + 1)
  else mkGroupState (groups st ++ [mkGroup (currentYear st) (currentCount st)]) y 1.

Definition yearGroups (months : list Date) : list YearGroup :=
  match months with
  | [] => []
  | m0 :: _ =>
      let st := fold_left groupStep months (mkGroupState [] (getFullYear m0) 0) in
      if 0 <? currentCount st
      then groups st ++ [mkGroup (currentYear st) (currentCount st)]
      else groups st
  end.

(** No two neighbours of a list are equal. *)
Definition noRepeat (l : list Z) : Prop :=
  forall i a b, nth_error l i = Some a -> nth_error l (S i) = Some b -> a <> b.

(** The groups with the one still being counted added at the end. *)
Definition closeGroups (st : GroupState) : list YearGroup :=
  groups st ++ [mkGroup (currentYear st) (currentCount st)].

(** The years a list of groups stands for, one per month. *)
Definition expandGroups (gs : list YearGroup) : list Z :=
  flat_map (fun g => repeat (year g) (Z.to_nat (groupCount g))) gs.

(** [format(new Date(), 'yyyy-MM') === format(month, 'yyyy-MM')]: the
    month cell that is highlighted. *)
Definition isCurrentMonth (now month : Date) : bool :=
  (getFullYear now =? getFullYear month) && (getMonth now =? getMonth month).

(** [getPositionPercentage(new Date(), start, totalDays)] *)
Definition todayLeft (now : Date) (r : TimelineRange) : Q :=
  getPositionPercentage now (start r) (differenceInDays (end_ r) (start r)).

(** [differenceInDays(end, start)] of the range the timeline shows. *)
Definition totalDaysOf (r : TimelineRange) : Z :=
  differenceInDays (end_ r) (start r).

(** The sidebar: [sidebarWidth] and [resizingRef.current]. *)
Record ResizeRef : Type := mkRef { startX : Q; startWidth : Q }.

Record Sidebar : Type := mkSidebar {
  sidebarWidth : Q;
  resizingRef  : option ResizeRef
}.

Definition initialSidebar : Sidebar := mkSidebar 240 None.

Definition startResizing (clientX : Q) (st : Sidebar) : Sidebar :=
  mkSidebar (sidebarWidth st) (Some (mkRef clientX (sidebarWidth st))).

Definition handleMouseMove (clientX : Q) (st : Sidebar) : Sidebar :=
  match resizingRef st with
  | None => st
  | Some r =>
      let delta := (clientX - startX r)%Q in
      let newWidth := Qmax 140 (Qmin 500 (startWidth r + delta)) in
      mkSidebar newWidth (resizingRef st)
  end.

Definition stopResizing (st : Sidebar) : Sidebar :=
  mkSidebar (sidebarWidth st) None.

Inductive MouseEvent : Type :=
| mouseDown (clientX : Q)
| mouseMove (clientX : Q)
| mouseUp.

Definition handleEvent (st : Sidebar) (e : MouseEvent) : Sidebar :=
  match e with
  | mouseDown x => startResizing x st
  | mouseMove x => handleMouseMove x st
  | mouseUp => stopResizing st
  end.

End TimelineHeader.

(* ================================================================= *)
(** ** components/EditModal.tsx: the form state                        *)
(* ================================================================= *)

Module EditModal.
Import DateFns Timeline.

(** [Partial<Subscription>]: every field may be missing. *)
Record FormData : Type := mkForm {
  f_id        : option string;
  f_name      : option string;
  f_amount    : option Z;
  f_currency  : option string;
  f_cycle     : option BillingCycle;
  f_startDate : option Date;
  f_endDate   : option Date;
  f_color     : option string;
  f_icon      : option string;
  f_autoRenew : option bool;
  f_order     : option Z;
  f_type      : option ItemType
}.

Definition setDates (f : FormData) (s e : option Date) : FormData :=
  mkForm (f_id f) (f_name f) (f_amount f) (f_currency f) (f_cycle f)
    s e (f_color f) (f_icon f) (f_autoRenew f) (f_order f) (f_type f).

Definition setAutoRenew (f : FormData) (b : bool) (e : option Date) : FormData :=
  mkForm (f_id f) (f_name f) (f_amount f) (f_currency f) (f_cycle f)
    (f_startDate f) e (f_color f) (f_icon f) (Some b) (f_order f) (f_type f).

Definition setCycle (f : FormData) (c : BillingCycle) (e : option Date) : FormData :=
  mkForm (f_id f) (f_name f) (f_amount f) (f_currency f) (Some c)
    (f_startDate f) e (f_color f) (f_icon f) (f_autoRenew f) (f_order f) (f_type f).

(** [formData.autoRenew ?? true] and [formData.cycle || BillingCycle.MONTHLY] *)
Definition isAutoRenew (f : FormData) : bool :=
  match f_autoRenew f with Some b => b | None => true end.

Definition cycleOrMonthly (f : FormData) : BillingCycle :=
  match f_cycle f with Some c => c | None => MONTHLY end.

(** [calculateCycleEndDate(start, cycle)]; [null] only for an invalid
    start. *)
Definition calculateCycleEndDate (start : Date) (c : BillingCycle) : option Date :=
  if negb (isValid start) then None
  else Some (match c with
             | MONTHLY => addMonths start 1
             | YEARLY => addMonths start 12
             end).

Inductive DateField : Type := startDateField | endDateField.

(** [handleDateChange(field, value)]; [value] is the empty string
    ([None]) or the date the text denotes. *)
Definition handleDateChange (field : DateField) (value : option Date)
    (formData : FormData) : FormData :=
  match value with
  | None =>
      match field with
      | startDateField => formData
      | endDateField => setDates formData (f_startDate formData) None
      end
  | Some dateObj =>
      if isValid dateObj then
        match field with
        | startDateField =>
            let newEndDate :=
              if isAutoRenew formData
              then calculateCycleEndDate dateObj (cycleOrMonthly formData)
              else f_endDate formData in
            setDates formData (Some dateObj) newEndDate
        | endDateField => setDates formData (f_startDate formData) (Some dateObj)
        end
      else formData
  end.

(** [handleAutoRenewChange]: [checked] is the new state of the box. *)
Definition handleAutoRenewChange (checked : bool) (formData : FormData) : FormData :=
  let newEndDate :=
    match f_startDate formData with
    | Some s =>
        if checked && isValid s
        then calculateCycleEndDate s (cycleOrMonthly formData)
        else f_endDate formData
    | None => f_endDate formData
    end in
  setAutoRenew formData checked newEndDate.

(** The [onChange] of the billing-cycle [select]. *)
Definition handleCycleChange (newCycle : BillingCycle) (formData : FormData) : FormData :=
  let newEndDate :=
    match f_startDate formData with
    | Some s =>
        if isAutoRenew formData && isValid s
        then calculateCycleEndDate s newCycle
        else f_endDate formData
    | None => f_endDate formData
    end in
  setCycle formData newCycle newEndDate.

(** The edits of the dates, the cycle and the auto-renewal box.  The
    end-date input carries [disabled={isAutoRenew}]. *)
Inductive FormEvent : Type :=
| changeDate (field : DateField) (value : option Date)
| changeAutoRenew (checked : bool)
| changeCycle (newCycle : BillingCycle).

Definition enabled (formData : FormData) (e : FormEvent) : bool :=
  match e with
  | changeDate endDateField _ => negb (isAutoRenew formData)
  | _ => true
  end.

Definition applyEvent (formData : FormData) (e : FormEvent) : FormData :=
  match e with
  | changeDate field value => handleDateChange field value formData
  | changeAutoRenew checked => handleAutoRenewChange checked formData
  | changeCycle c => handleCycleChange c formData
  end.

(** Under auto-renewal the end date is the start date plus one cycle. *)
Definition endFollowsStart (formData : FormData) : Prop :=
  isAutoRenew formData = true ->
  forall s, f_startDate formData = Some s ->
    f_endDate formData = Some (advance (cycleOrMonthly formData) s).

End EditModal.

(* ================================================================= *)
(** ** App.tsx with the list in component state (src/constants.ts)    *)
(* ================================================================= *)

Module AppState.
Import DateFns Timeline.

Definition sameId (i : string) (sub : Subscription) : bool := String.eqb (id sub) i.

(** [handleSave]: replace the entries with the same id, or append. *)
Definition handleSave (updatedSub : Subscription) (prev : list Subscription)
  : list Subscription :=
  match find (sameId (id updatedSub)) prev with
  | Some _ => map (fun sub => if sameId (id updatedSub) sub then updatedSub else sub) prev
  | None => prev ++ [updatedSub]
  end.

(** [handleDelete]; [confirmed] is the answer to [confirm(...)]. *)
Definition handleDelete (confirmed : bool) (i : string) (prev : list Subscription)
  : list Subscription :=
  if confirmed then filter (fun sub => negb (sameId i sub)) prev else prev.

End AppState.

(* ================================================================= *)
(** ** Timeline.tsx without auto-renewal (src/unnamed/part_000)       *)
(* ================================================================= *)

Module TimelineV1.
Import DateFns DateHelpers Timeline.

Inductive PieceKind : Type := pastPiece | futurePiece.

Record Piece : Type := mkPiece {
  pieceKind  : PieceKind;
  pieceLeft  : Q;
  pieceWidth : Q
}.

(** The bar area of a row: grey when the bar ends before today,
    coloured when it starts after today, otherwise both parts. *)
Definition rowPieces (left width todayLeft : Q) : list Piece :=
  let barStartPct := left in
  let barWidthPct := width in
  let barEndPct := (barStartPct + barWidthPct)%Q in
  if Qle_bool barEndPct todayLeft then [mkPiece pastPiece barStartPct barWidthPct]
  else if Qle_bool todayLeft barStartPct then [mkPiece futurePiece barStartPct barWidthPct]
  else
    let pastWidth := (todayLeft - barStartPct)%Q in
    let futureWidth := (barEndPct - todayLeft)%Q in
    [mkPiece pastPiece barStartPct pastWidth;
     mkPiece futurePiece todayLeft futureWidth].

(** The sum of the widths of the pieces of a row. *)
Definition totalWidth (pieces : list Piece) : Q :=
  fold_right (fun p acc => (pieceWidth p + acc)%Q) 0%Q pieces.

(** The row of a subscription in the window [start, end]. *)
Definition subscriptionPieces (sub : Subscription) (start endD : Date)
    (totalDays : Z) (today : Date) : list Piece :=
  let left := getPositionPercentage (startDate sub) start totalDays in
  let width := getWidthPercentage (startDate sub) (endDate sub) start endD totalDays in
  let todayLeft := getPositionPercentage today start totalDays in
  rowPieces left width todayLeft.

End TimelineV1.

(* ================================================================= *)
(** ** Months as indices                                               *)
(* ================================================================= *)

Module Calendar.
Import DateFns.

(** The number of the month of a date, counted from January of year 0. *)
Definition monthIndex (d : Date) : Z := 12 * getFullYear d + getMonth d.

(** Midnight of the first day of the month with index [mi]. *)
Definition firstOfMonthAt (mi : Z) : Date := mkDate (mi / 12) (mi mod 12) 1 0.

(** The month indices [from], [from + 1], ... ([n] of them). *)
Definition monthsFrom (from : Z) (n : nat) : list Date :=
  map (fun i => firstOfMonthAt (from + Z.of_nat i)) (seq 0 n).

(** A date whose month field is one of the twelve months. *)
Definition monthInRange (d : Date) : Prop := 0 <= getMonth d < 12.

Definition monthInRangeOpt (o : option Date) : Prop :=
  match o with Some d => monthInRange d | None => True end.

(** The month indices of the two ends of the range that
    [getTimelineRange] computes: the given month, or one month before
    and thirteen months after the month of [now]. *)
Definition startIndex (now : Date) (customStart : option Date) : Z :=
  match customStart with
  | Some c => monthIndex c
  | None => monthIndex now - 1
  end.

Definition endIndex (now : Date) (customEnd : option Date) : Z :=
  match customEnd with
  | Some c => monthIndex c
  | None => monthIndex now + 13
  end.

End Calendar.

(* ================================================================= *)
(** ** Facts about the date model                                     *)
(* ================================================================= *)

Module DateFnsFacts.
Import DateFns.

Lemma date_leb_false a b : date_leb a b = false -> getTime b < getTime a.
Proof. unfold date_leb. apply Z.leb_gt. Qed.

Lemma date_leb_true a b : date_leb a b = true -> getTime a <= getTime b.
Proof. unfold date_leb. apply Z.leb_le. Qed.

Lemma dayFromYear_succ y :
  dayFromYear (y + 1) = dayFromYear y + 365 + (if isLeapYear y then 1 else 0).
Proof.
  unfold dayFromYear, isLeapYear.
  replace (y + 1 - 1970) with (y - 1970 + 1) by lia.
  replace (y + 1 - 1969) with (y - 1969 + 1) by lia.
  replace (y + 1 - 1901) with (y - 1901 + 1) by lia.
  replace (y + 1 - 1601) with (y - 1601 + 1) by lia.
  destruct (Z.eqb_spec (y mod 4) 0), (Z.eqb_spec (y mod 100) 0),
    (Z.eqb_spec (y mod 400) 0); cbn [andb orb negb];
    Z.to_euclidean_division_equations; lia.
Qed.

Lemma split_month_index mi :
  exists y m, mi = 12 * y + m /\ 0 <= m < 12 /\ mi / 12 = y /\ mi mod 12 = m.
Proof.
  exists (mi / 12), (mi mod 12).
  pose proof (Z.div_mod mi 12 ltac:(lia)).
  pose proof (Z.mod_pos_bound mi 12 ltac:(lia)). lia.
Qed.

Lemma div_mod_12 y m : 0 <= m < 12 -> (12 * y + m) / 12 = y /\ (12 * y + m) mod 12 = m.
Proof.
  intros H. split.
  - symmetry. apply (Z.div_unique _ _ y m); lia.
  - symmetry. apply (Z.mod_unique _ _ y m); lia.
Qed.

Lemma monthStart_succ mi :
  monthStart (mi + 1) = monthStart mi + getDaysInMonth (mi / 12) (mi mod 12).
Proof.
  destruct (split_month_index mi) as (y & m & -> & Hm & Hy & Hmm).
  unfold monthStart. rewrite Hy, Hmm.
  assert (Hc : m = 11 \/ 0 <= m < 11) by lia.
  destruct Hc as [-> | Hlt].
  - replace (12 * y + 11 + 1) with (12 * (y + 1) + 0) by lia.
    destruct (div_mod_12 (y + 1) 0 ltac:(lia)) as [-> ->].
    rewrite dayFromYear_succ. unfold daysBeforeMonth, getDaysInMonth. destruct (isLeapYear y), (isLeapYear (y+1)). all: lia.
  - replace (12 * y + m + 1) with (12 * y + (m + 1)) by lia.
    destruct (div_mod_12 y (m + 1) ltac:(lia)) as [-> ->].
    assert (Hcases : m = 0 \/ m = 1 \/ m = 2 \/ m = 3 \/ m = 4 \/ m = 5 \/ m = 6
                     \/ m = 7 \/ m = 8 \/ m = 9 \/ m = 10) by lia.
    clear Hy Hmm Hm Hlt.
    destruct (isLeapYear y) eqn:Hl;
    destruct Hcases as [-> | [-> | [-> | [-> | [-> | [-> | [-> | [-> | [-> | [-> | ->]]]]]]]]]];
      cbn [Z.add Pos.add Pos.succ]; unfold daysBeforeMonth, getDaysInMonth;
      rewrite ?Hl; lia.
Qed.

Lemma getDaysInMonth_bounds y m : 28 <= getDaysInMonth y m <= 31.
Proof.
  unfold getDaysInMonth.
  destruct m as [|p|p]; try lia.
  destruct (isLeapYear y);
  do 4 (destruct p as [p|p|]; try lia).
Qed.

Lemma monthStart_mono (n : nat) mi :
  monthStart mi + getDaysInMonth (mi / 12) (mi mod 12)
  <= monthStart (mi + 1 + Z.of_nat n).
Proof.
  induction n as [|n IH].
  - rewrite Z.add_0_r, monthStart_succ. lia.
  - replace (mi + 1 + Z.of_nat (S n)) with (mi + 1 + Z.of_nat n + 1) by lia.
    rewrite monthStart_succ.
    pose proof (getDaysInMonth_bounds ((mi + 1 + Z.of_nat n) / 12)
                  ((mi + 1 + Z.of_nat n) mod 12)).
    lia.
Qed.

Lemma wfDate_fields d :
  wfDate d ->
  0 <= getMonth d < 12
  /\ 1 <= getDate d <= getDaysInMonth (getFullYear d) (getMonth d)
  /\ 0 <= msOfDay d < msPerDay.
Proof.
  unfold wfDate, wfDateb. rewrite !andb_true_iff. lia.
Qed.

Lemma wfDate_intro d :
  0 <= getMonth d < 12 ->
  1 <= getDate d <= getDaysInMonth (getFullYear d) (getMonth d) ->
  0 <= msOfDay d < msPerDay ->
  wfDate d.
Proof.
  unfold wfDate, wfDateb. rewrite !andb_true_iff. lia.
Qed.

Lemma dayNumber_monthStart d :
  0 <= getMonth d < 12 ->
  dayNumber d = monthStart (12 * getFullYear d + getMonth d) + (getDate d - 1).
Proof.
  intros Hm. unfold dayNumber, monthStart.
  destruct (div_mod_12 (getFullYear d) (getMonth d) Hm) as [-> ->]. reflexivity.
Qed.

Lemma addMonths_wf d k : wfDate d -> wfDate (addMonths d k).
Proof.
  intros Hd. destruct (wfDate_fields d Hd) as (Hm & Hday & Hms).
  unfold addMonths. destruct (k =? 0); [exact Hd|].
  set (mi := getFullYear d * 12 + getMonth d + k).
  pose proof (Z.mod_pos_bound mi 12 ltac:(lia)).
  pose proof (getDaysInMonth_bounds (mi / 12) (mi mod 12)).
  destruct (Z.geb_spec (getDate d) (getDaysInMonth (mi / 12) (mi mod 12)));
    apply wfDate_intro; cbn; lia.
Qed.

Lemma addMonths_dayNumber_lt d k :
  wfDate d -> 0 < k -> dayNumber d < dayNumber (addMonths d k).
Proof.
  intros Hd Hk. destruct (wfDate_fields d Hd) as (Hm & Hday & Hms).
  unfold addMonths. destruct (Z.eqb_spec k 0); [lia|].
  set (mi := getFullYear d * 12 + getMonth d).
  pose proof (Z.mod_pos_bound (mi + k) 12 ltac:(lia)) as Hb.
  pose proof (Z.div_mod (mi + k) 12 ltac:(lia)) as Hdm.
  pose proof (getDaysInMonth_bounds ((mi + k) / 12) ((mi + k) mod 12)) as Hdim.
  pose proof (monthStart_mono (Z.to_nat (k - 1)) mi) as Hmono.
  replace (mi + 1 + Z.of_nat (Z.to_nat (k - 1))) with (mi + k) in Hmono by lia.
  destruct (div_mod_12 (getFullYear d) (getMonth d) Hm) as [Hy Hmo].
  replace (12 * getFullYear d + getMonth d) with mi in Hy, Hmo by (unfold mi; lia).
  rewrite Hy, Hmo in Hmono.
  rewrite (dayNumber_monthStart d Hm).
  replace (12 * getFullYear d + getMonth d) with mi by (unfold mi; lia).
  destruct (Z.geb_spec (getDate d) (getDaysInMonth ((mi + k) / 12) ((mi + k) mod 12)));
    rewrite dayNumber_monthStart by (cbn; lia); cbn [getFullYear getMonth getDate];
    replace (12 * ((mi + k) / 12) + (mi + k) mod 12) with (mi + k) by lia; lia.
Qed.

Lemma msOfDay_addMonths d k : msOfDay (addMonths d k) = msOfDay d.
Proof.
  unfold addMonths. destruct (k =? 0); [reflexivity|].
  match goal with |- context [if ?c then _ else _] => destruct c end; reflexivity.
Qed.

Lemma addMonths_lt d k :
  wfDate d -> 0 < k -> getTime d < getTime (addMonths d k).
Proof.
  intros Hd Hk. unfold getTime. rewrite msOfDay_addMonths.
  pose proof (addMonths_dayNumber_lt d k Hd Hk). unfold msPerDay. lia.
Qed.

(** Full days, truncated towards zero. *)
Lemma differenceInDays_quot a b :
  0 <= msOfDay a < msPerDay -> 0 <= msOfDay b < msPerDay ->
  differenceInDays a b = Z.quot (getTime a - getTime b) msPerDay.
Proof.
  intros Ha Hb. unfold differenceInDays, getTime, msPerDay in *.
  set (x := dayNumber a) in *. set (y := dayNumber b) in *.
  set (p := msOfDay a) in *. set (q := msOfDay b) in *.
  destruct (Z.eqb_spec (Z.sgn (p - q)) (- Z.sgn (x * 86400000 + p - (y * 86400000 + q))));
  Z.to_euclidean_division_equations; nia.
Qed.
End DateFnsFacts.

(* ================================================================= *)
(** ** The renewal projection (Timeline.tsx, lines 79-99)             *)
(* ================================================================= *)

Module RenewalFacts.
Import DateFns DateHelpers Timeline DateFnsFacts.

Import Spec.

Lemma advance_wf c d : wfDate d -> wfDate (advance c d).
Proof. destruct c; apply addMonths_wf. Qed.

Lemma advance_lt c d : wfDate d -> getTime d < getTime (advance c d).
Proof. destruct c; intros; apply addMonths_lt; auto; lia. Qed.

Lemma renewals_wf c n d : wfDate d -> wfDate (renewals c n d).
Proof. intros Hd. induction n; cbn; auto using advance_wf. Qed.

Lemma renewals_shift c n d :
  renewals c n (advance c d) = advance c (renewals c n d).
Proof. induction n; cbn; congruence. Qed.

Lemma renewals_mono c d (Hd : wfDate d) n m :
  (n <= m)%nat -> getTime (renewals c n d) <= getTime (renewals c m d).
Proof.
  induction 1 as [|m Hle IH]; [lia|].
  cbn. pose proof (advance_lt c _ (renewals_wf c m d Hd)). lia.
Qed.

Lemma renewals_lt c d (Hd : wfDate d) n :
  (0 < n)%nat -> getTime d < getTime (renewals c n d).
Proof.
  intros Hn. pose proof (renewals_mono c d Hd 1 n Hn) as H.
  cbn in H. pose proof (advance_lt c d Hd). lia.
Qed.

(** The loop from a state whose counter is [j]: with more than
    [1000 - j] steps of budget it stops after some [n <= 1000 - j]
    iterations, all of which saw a date not after [today]; it stops on
    a date after [today] or on the counter. *)
Lemma while_renewal c today fuel : forall (j : nat) (d : Date),
  (j <= 1000)%nat -> (1000 - j < fuel)%nat ->
  exists n : nat,
    (j + n <= 1000)%nat
    /\ while (loopCond today) (loopBody c) fuel (mkLoop d (Z.of_nat j))
       = Some (mkLoop (renewals c n d) (Z.of_nat (j + n)))
    /\ (forall m, (m < n)%nat -> getTime (renewals c m d) <= getTime today)
    /\ (getTime today < getTime (renewals c n d) \/ (j + n = 1000)%nat).
Proof.
  induction fuel as [|fuel IH]; intros j d Hj Hfuel; [lia|].
  cbn [while].
  change (loopCond today (mkLoop d (Z.of_nat j)))
    with ((getTime d <=? getTime today) && (Z.of_nat j <? 1000)).
  change (loopBody c (mkLoop d (Z.of_nat j)))
    with (mkLoop (advance c d) (Z.of_nat j + 1)).
  destruct (Z.leb_spec (getTime d) (getTime today)) as [Hle|Hgt];
    [destruct (Z.ltb_spec (Z.of_nat j) 1000) as [Hlt|Hge]|]; cbn [andb].
  - replace (Z.of_nat j + 1) with (Z.of_nat (S j)) by lia.
    destruct (IH (S j) (advance c d) ltac:(lia) ltac:(lia))
      as (n & Hn & Hrun & Hbefore & Hstop).
    exists (S n). repeat split.
    + lia.
    + rewrite Hrun, renewals_shift. cbn [renewals].
      do 2 f_equal. lia.
    + intros [|m] Hm; [exact Hle|].
      cbn [renewals]. rewrite <- renewals_shift.
      apply Hbefore. lia.
    + cbn [renewals]. rewrite <- renewals_shift.
      destruct Hstop; [left; assumption | right; lia].
  - exists 0%nat. repeat split.
    + lia.
    + cbn. do 2 f_equal. lia.
    + intros m Hm; lia.
    + right. lia.
  - exists 0%nat. repeat split.
    + lia.
    + cbn. do 2 f_equal. lia.
    + intros m Hm; lia.
    + left. exact Hgt.
Qed.

Lemma while_more_fuel {S : Type} (cond : S -> bool) (body : S -> S) fuel :
  forall s r fuel', (fuel <= fuel')%nat ->
    while cond body fuel s = Some r -> while cond body fuel' s = Some r.
Proof.
  induction fuel as [|fuel IH]; intros s r fuel' Hle Hrun; [discriminate|].
  destruct fuel' as [|fuel']; [lia|].
  cbn [while] in *. destruct (cond s); [|exact Hrun].
  apply (IH _ _ fuel'); [lia | exact Hrun].
Qed.

(** What [projectNextRenewal] returns when the start is not after the
    reference date: the result of some [n] renewals, [1 <= n <= 1000],
    none of the earlier ones being after the reference date. *)
Lemma projectNextRenewal_past startD c today :
  getTime startD <= getTime today ->
  exists n : nat,
    (1 <= n <= 1000)%nat
    /\ renewalLoop loopFuel startD c today
       = Some (mkLoop (renewals c n startD) (Z.of_nat n))
    /\ projectNextRenewal startD c today = renewals c n startD
    /\ (forall m, (m < n)%nat -> getTime (renewals c m startD) <= getTime today)
    /\ (getTime today < getTime (renewals c n startD) \/ n = 1000%nat).
Proof.
  intros Hle.
  destruct (while_renewal c today loopFuel 0 startD)
    as (n & Hn & Hrun & Hbefore & Hstop);
    [lia | unfold loopFuel, MAX_LOOPS; lia |].
  cbn [Nat.add Z.of_nat] in *.
  exists n. split; [|split; [|split; [|split]]].
  - destruct n; [cbn [renewals] in Hstop|]; lia.
  - exact Hrun.
  - unfold projectNextRenewal, isValid, date_leb.
    destruct (Z.leb_spec (getTime startD) (getTime today)); [|lia].
    unfold renewalLoop. rewrite Hrun. reflexivity.
  - exact Hbefore.
  - destruct Hstop; [left; assumption | right; lia].
Qed.

Lemma projectNextRenewal_future startD c today :
  getTime today < getTime startD ->
  projectNextRenewal startD c today = advance c startD.
Proof.
  intros Hlt. unfold projectNextRenewal, isValid, date_leb.
  destruct (Z.leb_spec (getTime startD) (getTime today)); [lia|reflexivity].
Qed.

(** The next renewal is after the start date. *)
Lemma projectNextRenewal_after_start startD c today :
  wfDate startD -> getTime startD < getTime (projectNextRenewal startD c today).
Proof.
  intros Hwf.
  destruct (Z.le_gt_cases (getTime startD) (getTime today)) as [Hle|Hgt].
  - destruct (projectNextRenewal_past startD c today Hle)
      as (n & Hn & _ & -> & _).
    apply renewals_lt; [assumption | lia].
  - rewrite projectNextRenewal_future by assumption.
    apply advance_lt; assumption.
Qed.

(** C4: the stepping loop runs its body at most [MAX_LOOPS] = 1000
    times and then stops, whatever the dates: every budget above 1000
    steps yields the same final state, whose counter [n] is at most 1000
    and whose date is the [n]-th renewal, the last value computed; that
    date is what the projection returns, also when the counter stopped
    the loop. *)
Theorem renewal_loop_bounded startD c today :
  exists n : nat,
    (n <= Z.to_nat MAX_LOOPS)%nat
    /\ (forall fuel, (Z.to_nat MAX_LOOPS < fuel)%nat ->
          renewalLoop fuel startD c today
          = Some (mkLoop (renewals c n startD) (Z.of_nat n)))
    /\ (getTime startD <= getTime today ->
         projectNextRenewal startD c today = renewals c n startD)
    /\ (getTime today < getTime (renewals c n startD)
         \/ n = Z.to_nat MAX_LOOPS).
Proof.
  destruct (while_renewal c today loopFuel 0 startD)
    as (n & Hn & Hrun & Hbefore & Hstop);
    [lia | unfold loopFuel, MAX_LOOPS; lia |].
  cbn [Nat.add Z.of_nat] in *.
  exists n. unfold MAX_LOOPS. split; [|split; [|split]].
  - lia.
  - intros fuel Hfuel. unfold renewalLoop.
    apply (while_more_fuel _ _ loopFuel); [unfold loopFuel, MAX_LOOPS; lia|].
    exact Hrun.
  - intros Hle. unfold projectNextRenewal, isValid, date_leb.
    destruct (Z.leb_spec (getTime startD) (getTime today)); [|lia].
    unfold renewalLoop. rewrite Hrun. reflexivity.
  - destruct Hstop; [left; assumption | right; lia].
Qed.

(** The code's step [advance] adds the period of the specification, so
    the dates the loop runs through are the specification's sequence. *)
Lemma advance_cyclePeriodMonths c d :
  advance c d = addMonths d (cyclePeriodMonths c).
Proof. destruct c; reflexivity. Qed.

Lemma renewals_plusPeriods c n d : renewals c n d = plusPeriods c n d.
Proof.
  induction n as [|n IH]; [reflexivity|].
  change (renewals c (S n) d) with (advance c (renewals c n d)).
  change (plusPeriods c (S n) d)
    with (addMonths (plusPeriods c n d) (cyclePeriodMonths c)).
  rewrite IH. apply advance_cyclePeriodMonths.
Qed.

(** C2: when the loop is not stopped by its counter, a start date not
    after the reference date yields the first date of the sequence
    startDate, startDate + 1 period, startDate + 2 periods, ... that is
    strictly after the reference date, where one period is one calendar
    month for MONTHLY and twelve calendar months for YEARLY and the
    sequence [plusPeriods] adds it with [addMonths]; a start date after
    the reference date yields the start date plus one period, that is
    [addMonths startDate 1] for MONTHLY and [addMonths startDate 12] for
    YEARLY. *)
Theorem projectNextRenewal_first_after startD c referenceDate :
  capReached startD c referenceDate = false ->
  (getTime startD <= getTime referenceDate ->
     exists n : nat,
       (0 < n)%nat
       /\ projectNextRenewal startD c referenceDate = plusPeriods c n startD
       /\ getTime referenceDate < getTime (plusPeriods c n startD)
       /\ forall m, (m < n)%nat ->
            getTime (plusPeriods c m startD) <= getTime referenceDate)
  /\ (getTime referenceDate < getTime startD ->
       projectNextRenewal startD c referenceDate
       = addMonths startD (match c with MONTHLY => 1 | YEARLY => 12 end)).
Proof.
  intros Hcap. split.
  - intros Hle.
    destruct (projectNextRenewal_past startD c referenceDate Hle)
      as (n & Hn & Hrun & Heq & Hbefore & Hstop).
    unfold capReached in Hcap. rewrite Hrun in Hcap.
    cbn [loopCount] in Hcap. apply Z.leb_gt in Hcap. unfold MAX_LOOPS in Hcap.
    destruct Hstop as [Hafter|Hcount]; [|lia].
    exists n. split; [lia|]. split; [|split].
    + rewrite <- renewals_plusPeriods. assumption.
    + rewrite <- renewals_plusPeriods. assumption.
    + intros m Hm. rewrite <- renewals_plusPeriods. apply Hbefore. assumption.
  - intros Hgt. rewrite projectNextRenewal_future by assumption.
    apply advance_cyclePeriodMonths.
Qed.

Lemma projectNextRenewal_first_after_witness :
  capReached (ymd 2024 1 31) MONTHLY (ymd 2024 2 15) = false
  /\ (exists n : nat,
        (0 < n)%nat
        /\ projectNextRenewal (ymd 2024 1 31) MONTHLY (ymd 2024 2 15)
           = plusPeriods MONTHLY n (ymd 2024 1 31)
        /\ getTime (ymd 2024 2 15) < getTime (plusPeriods MONTHLY n (ymd 2024 1 31))
        /\ forall m, (m < n)%nat ->
             getTime (plusPeriods MONTHLY m (ymd 2024 1 31))
             <= getTime (ymd 2024 2 15))
  /\ capReached (ymd 2024 3 10) YEARLY (ymd 2024 2 15) = false
  /\ projectNextRenewal (ymd 2024 3 10) YEARLY (ymd 2024 2 15)
     = addMonths (ymd 2024 3 10) 12.
Proof.
  split; [vm_compute; reflexivity|]. split.
  - apply (projectNextRenewal_first_after (ymd 2024 1 31) MONTHLY (ymd 2024 2 15)).
    + vm_compute. reflexivity.
    + vm_compute. discriminate.
  - split; [vm_compute; reflexivity|].
    apply (projectNextRenewal_first_after (ymd 2024 3 10) YEARLY (ymd 2024 2 15)).
    + vm_compute. reflexivity.
    + vm_compute. reflexivity.
Defined.

(** C8: for a fixed start date and cycle the projection is monotone in
    the reference date, across the [startDate > referenceDate] boundary
    and when the counter stops the loop. *)
Theorem projectNextRenewal_monotone startD c referenceDate1 referenceDate2 :
  wfDate startD ->
  getTime referenceDate1 <= getTime referenceDate2 ->
  getTime (projectNextRenewal startD c referenceDate1)
  <= getTime (projectNextRenewal startD c referenceDate2).
Proof.
  intros Hwf Href.
  destruct (Z.le_gt_cases (getTime startD) (getTime referenceDate1)) as [H1|H1].
  - destruct (projectNextRenewal_past startD c referenceDate1 H1)
      as (n1 & Hn1 & _ & -> & Hbefore1 & _).
    destruct (projectNextRenewal_past startD c referenceDate2 ltac:(lia))
      as (n2 & Hn2 & _ & -> & _ & Hstop2).
    apply renewals_mono; [assumption|].
    destruct (Nat.le_gt_cases n1 n2) as [|Hlt]; [assumption|].
    specialize (Hbefore1 n2 Hlt). lia.
  - rewrite (projectNextRenewal_future startD c referenceDate1 H1).
    destruct (Z.le_gt_cases (getTime startD) (getTime referenceDate2)) as [H2|H2].
    + destruct (projectNextRenewal_past startD c referenceDate2 H2)
        as (n2 & Hn2 & _ & -> & _).
      apply (renewals_mono c startD Hwf 1 n2). lia.
    + rewrite (projectNextRenewal_future startD c referenceDate2 H2). lia.
Qed.

Lemma projectNextRenewal_monotone_witness :
  wfDate (ymd 2024 6 1)
  /\ getTime (ymd 2024 5 20) <= getTime (ymd 2024 8 15)
  /\ getTime (projectNextRenewal (ymd 2024 6 1) MONTHLY (ymd 2024 5 20))
     <= getTime (projectNextRenewal (ymd 2024 6 1) MONTHLY (ymd 2024 8 15)).
Proof.
  assert (Hwf : wfDate (ymd 2024 6 1)) by (vm_compute; reflexivity).
  assert (Hle : getTime (ymd 2024 5 20) <= getTime (ymd 2024 8 15))
    by (vm_compute; discriminate).
  split; [exact Hwf|]. split; [exact Hle|].
  exact (projectNextRenewal_monotone (ymd 2024 6 1) MONTHLY
           (ymd 2024 5 20) (ymd 2024 8 15) Hwf Hle).
Defined.
End RenewalFacts.

(* ================================================================= *)
(** ** Day differences and percentages                                *)
(* ================================================================= *)

Module PercentFacts.
Import DateFns DateHelpers DateFnsFacts.
Local Open Scope Q_scope.

Lemma inject_Z_pos (T : Z) : (0 < T)%Z -> 0 < inject_Z T.
Proof. intros HT. unfold Qlt. cbn. lia. Qed.

(** [(n / totalDays) * 100], the shape of every percentage. *)
Lemma percent_mono (x y T : Z) :
  (x <= y)%Z -> (0 < T)%Z ->
  inject_Z x / inject_Z T * 100 <= inject_Z y / inject_Z T * 100.
Proof.
  intros Hxy HT.
  apply Qmult_le_compat_r; [|discriminate].
  apply Qmult_le_compat_r.
  - rewrite <- Zle_Qle. exact Hxy.
  - apply Qlt_le_weak, Qinv_lt_0_compat, inject_Z_pos, HT.
Qed.

Lemma percent_nonneg (x T : Z) :
  (0 <= x)%Z -> (0 < T)%Z -> 0 <= inject_Z x / inject_Z T * 100.
Proof.
  intros Hx HT.
  pose proof (percent_mono 0 x T Hx HT) as H.
  assert (E : inject_Z 0 / inject_Z T * 100 == 0) by (unfold Qdiv; ring).
  rewrite E in H. exact H.
Qed.

Lemma percent_plus (x y T : Z) :
  inject_Z (x + y) / inject_Z T * 100
  == inject_Z x / inject_Z T * 100 + inject_Z y / inject_Z T * 100.
Proof. rewrite inject_Z_plus. unfold Qdiv. ring. Qed.

Lemma percent_one_pos (T : Z) : (0 < T)%Z -> 0 < inject_Z 1 / inject_Z T * 100.
Proof.
  intros HT.
  apply Qmult_lt_0_compat; [|reflexivity].
  apply Qmult_lt_0_compat; [reflexivity|].
  apply Qinv_lt_0_compat, inject_Z_pos, HT.
Qed.

Lemma percent_full (T : Z) : (0 < T)%Z -> inject_Z T / inject_Z T * 100 == 100.
Proof.
  intros HT. field. intros E.
  pose proof (inject_Z_pos T HT) as H.
  rewrite E in H. discriminate H.
Qed.

Lemma percent_one (T : Z) : inject_Z 1 / inject_Z T * 100 == 100 / inject_Z T.
Proof. unfold Qdiv. change (inject_Z 1) with 1. ring. Qed.

Lemma differenceInDays_nonneg a b :
  wfDate a -> wfDate b -> (getTime b <= getTime a)%Z ->
  (0 <= differenceInDays a b)%Z.
Proof.
  intros Ha Hb Hle.
  rewrite differenceInDays_quot by (apply wfDate_fields; assumption).
  apply Z.quot_pos; unfold msPerDay; lia.
Qed.

Lemma differenceInDays_mono a a' b :
  wfDate a -> wfDate a' -> wfDate b -> (getTime a <= getTime a')%Z ->
  (differenceInDays a b <= differenceInDays a' b)%Z.
Proof.
  intros Ha Ha' Hb Hle.
  rewrite !differenceInDays_quot by (apply wfDate_fields; assumption).
  apply Z.quot_le_mono; unfold msPerDay; lia.
Qed.

Lemma differenceInDays_chain a b c :
  wfDate a -> wfDate b -> wfDate c ->
  (getTime c <= getTime b)%Z -> (getTime b <= getTime a)%Z ->
  (differenceInDays a b + differenceInDays b c <= differenceInDays a c)%Z.
Proof.
  intros Ha Hb Hc Hcb Hba.
  rewrite !differenceInDays_quot by (apply wfDate_fields; assumption).
  unfold msPerDay. Z.to_euclidean_division_equations. nia.
Qed.

Lemma differenceInDays_same d : differenceInDays d d = 0%Z.
Proof.
  unfold differenceInDays. rewrite !Z.sub_diag. reflexivity.
Qed.

Lemma getPositionPercentage_nonneg d s T :
  wfDate d -> wfDate s -> (0 < T)%Z -> 0 <= getPositionPercentage d s T.
Proof.
  intros Hd Hs HT. unfold getPositionPercentage, date_ltb.
  destruct (Z.ltb_spec (getTime d) (getTime s)); [apply Qle_refl|].
  apply percent_nonneg; [apply differenceInDays_nonneg|]; assumption.
Qed.

Lemma getPositionPercentage_mono a b s T :
  wfDate a -> wfDate b -> wfDate s -> (0 < T)%Z ->
  (getTime a <= getTime b)%Z ->
  getPositionPercentage a s T <= getPositionPercentage b s T.
Proof.
  intros Ha Hb Hs HT Hab. unfold getPositionPercentage, date_ltb.
  destruct (Z.ltb_spec (getTime a) (getTime s)),
           (Z.ltb_spec (getTime b) (getTime s)); try lia.
  - apply Qle_refl.
  - apply percent_nonneg; [apply differenceInDays_nonneg|]; assumption.
  - apply percent_mono; [apply differenceInDays_mono|]; assumption.
Qed.
End PercentFacts.

(* ================================================================= *)
(** ** utils/dateHelpers.ts and the date-range dialog                 *)
(* ================================================================= *)

Module DateHelpersFacts.
Import DateFns DateHelpers DateRangeModal DateFnsFacts PercentFacts.

Lemma getTime_date_max a b :
  getTime (Spec.date_max a b) = Z.max (getTime a) (getTime b).
Proof.
  unfold Spec.date_max, date_ltb.
  destruct (Z.ltb_spec (getTime a) (getTime b)); lia.
Qed.

Lemma getTime_date_min a b :
  getTime (Spec.date_min a b) = Z.min (getTime a) (getTime b).
Proof.
  unfold Spec.date_min, date_ltb.
  destruct (Z.ltb_spec (getTime b) (getTime a)); lia.
Qed.

Lemma getWidthPercentage_eq_widthOf start endD windowStart windowEnd totalDays :
  getWidthPercentage start endD windowStart windowEnd totalDays
  = Spec.widthOf start endD windowStart windowEnd totalDays.
Proof.
  unfold getWidthPercentage, Spec.widthOf, Spec.date_max, Spec.date_min,
    Spec.daysBetween, date_gtb.
  destruct endD as [e|]; [reflexivity|].
  destruct (date_ltb windowEnd windowEnd); reflexivity.
Qed.

(** C6: [getWidthPercentage] is the specification's [widthOf]: with
    effectiveStart = max(start, windowStart) and effectiveEnd =
    min(end ?? windowEnd, windowEnd) it is 0 when effectiveEnd is before
    effectiveStart and ((daysBetween + 1) / totalWindowDays) * 100
    otherwise; hence a one-day interval inside the window has a
    positive width. *)
Theorem getWidthPercentage_widthOf
    (start : Date) (endD : option Date) (windowStart windowEnd : Date)
    (totalWindowDays : Z) :
  0 < totalWindowDays ->
  let effectiveStart := Spec.date_max start windowStart in
  let effectiveEnd :=
    Spec.date_min (match endD with Some e => e | None => windowEnd end)
      windowEnd in
  getTime effectiveStart = Z.max (getTime start) (getTime windowStart)
  /\ getTime effectiveEnd
     = Z.min (getTime (match endD with Some e => e | None => windowEnd end))
         (getTime windowEnd)
  /\ getWidthPercentage start endD windowStart windowEnd totalWindowDays
     = Spec.widthOf start endD windowStart windowEnd totalWindowDays
  /\ (getTime effectiveEnd < getTime effectiveStart ->
      getWidthPercentage start endD windowStart windowEnd totalWindowDays = 0%Q)
  /\ (getTime effectiveStart <= getTime effectiveEnd ->
      getWidthPercentage start endD windowStart windowEnd totalWindowDays
      = ((inject_Z (Spec.daysBetween effectiveEnd effectiveStart + 1)
          / inject_Z totalWindowDays) * 100)%Q)
  /\ forall d : Date,
       getTime windowStart <= getTime d <= getTime windowEnd ->
       (0 < getWidthPercentage d (Some d) windowStart windowEnd totalWindowDays)%Q.
Proof.
  intros HT effectiveStart effectiveEnd.
  pose proof (getWidthPercentage_eq_widthOf start endD windowStart windowEnd
                totalWindowDays) as Heq.
  split; [apply getTime_date_max|]. split; [apply getTime_date_min|].
  split; [exact Heq|]. split; [|split].
  - intros Hlt. rewrite Heq. unfold Spec.widthOf.
    fold effectiveStart effectiveEnd. unfold date_ltb.
    destruct (Z.ltb_spec (getTime effectiveEnd) (getTime effectiveStart));
      [reflexivity | lia].
  - intros Hle. rewrite Heq. unfold Spec.widthOf.
    fold effectiveStart effectiveEnd. unfold date_ltb.
    destruct (Z.ltb_spec (getTime effectiveEnd) (getTime effectiveStart));
      [lia | reflexivity].
  - intros d [Hlo Hhi]. unfold getWidthPercentage, date_ltb, date_gtb.
    destruct (Z.ltb_spec (getTime d) (getTime windowStart)); [lia|].
    destruct (Z.ltb_spec (getTime windowEnd) (getTime d)); [lia|].
    rewrite Z.ltb_irrefl, differenceInDays_same.
    apply percent_one_pos. exact HT.
Qed.

Lemma getWidthPercentage_widthOf_witness :
  0 < 425
  /\ getWidthPercentage (ymd 2024 6 1) (Some (ymd 2024 12 1))
       (ymd 2024 1 1) (ymd 2025 3 1) 425
     = Spec.widthOf (ymd 2024 6 1) (Some (ymd 2024 12 1))
         (ymd 2024 1 1) (ymd 2025 3 1) 425
  /\ (0 < getWidthPercentage (ymd 2024 6 1) (Some (ymd 2024 6 1))
           (ymd 2024 1 1) (ymd 2025 3 1) 425)%Q.
Proof.
  assert (HT : 0 < 425) by reflexivity.
  destruct (getWidthPercentage_widthOf (ymd 2024 6 1) (Some (ymd 2024 12 1))
              (ymd 2024 1 1) (ymd 2025 3 1) 425 HT)
    as (_ & _ & Heq & _ & _ & Hday).
  split; [exact HT|]. split; [exact Heq|].
  apply Hday. vm_compute. split; discriminate.
Defined.

Lemma monthsLoop_more_fuel fuel :
  forall current endD acc r fuel', (fuel <= fuel')%nat ->
    monthsLoop fuel current endD acc = Some r ->
    monthsLoop fuel' current endD acc = Some r.
Proof.
  induction fuel as [|fuel IH]; intros current endD acc r fuel' Hle Hrun;
    [discriminate|].
  destruct fuel' as [|fuel']; [lia|].
  cbn [monthsLoop] in *. destruct (date_leb current endD); [|exact Hrun].
  apply (IH _ _ _ _ fuel'); [lia | exact Hrun].
Qed.

Lemma getTimelineRange_more_fuel fuel fuel' now customStart customEnd r :
  (fuel <= fuel')%nat ->
  getTimelineRange fuel now customStart customEnd = Returns r ->
  getTimelineRange fuel' now customStart customEnd = Returns r.
Proof.
  unfold getTimelineRange. intros Hle.
  destruct (monthsLoop fuel _ _ []) as [l|] eqn:Hrun; [|discriminate].
  rewrite (monthsLoop_more_fuel _ _ _ _ _ _ Hle Hrun). exact (fun H => H).
Qed.

(** C9 (scenario D): called without arguments on 2024-05-15, at any
    time of the day, [getTimelineRange] returns start = 2024-04-01,
    end = 2025-06-01 and the 15 first-of-month dates from start to end,
    each one calendar month after the one before. *)
Theorem getTimelineRange_default_window (ms : Z) (fuel : nat) :
  (15 < fuel)%nat ->
  exists r : TimelineRange,
    getTimelineRange fuel (mkDate 2024 4 15 ms) None None = Returns r
    /\ start r = ymd 2024 4 1
    /\ end_ r = ymd 2025 6 1
    /\ months r
       = [ymd 2024 4 1; ymd 2024 5 1; ymd 2024 6 1; ymd 2024 7 1;
          ymd 2024 8 1; ymd 2024 9 1; ymd 2024 10 1; ymd 2024 11 1;
          ymd 2024 12 1; ymd 2025 1 1; ymd 2025 2 1; ymd 2025 3 1;
          ymd 2025 4 1; ymd 2025 5 1; ymd 2025 6 1]
    /\ List.length (months r) = 15%nat
    /\ Forall (fun d => getDate d = 1 /\ msOfDay d = 0) (months r)
    /\ (forall i, (i < 14)%nat ->
          nth (S i) (months r) (start r) = addMonths (nth i (months r) (start r)) 1
          /\ getTime (nth i (months r) (start r))
             < getTime (nth (S i) (months r) (start r)))
    /\ nth 0 (months r) (start r) = start r
    /\ nth 14 (months r) (start r) = end_ r.
Proof.
  intros Hfuel.
  eexists. split.
  - apply (getTimelineRange_more_fuel 16 fuel); [lia|].
    vm_compute. reflexivity.
  - cbn [start end_ months].
    split; [reflexivity|]. split; [reflexivity|]. split; [reflexivity|].
    split; [reflexivity|]. split.
    + repeat constructor.
    + split; [|split; reflexivity].
      intros i Hi.
      do 14 (destruct i as [|i]; [vm_compute; split; reflexivity|]).
      lia.
Qed.

Lemma getTimelineRange_default_window_witness :
  exists r : TimelineRange,
    getTimelineRange 16 (mkDate 2024 4 15 43200000) None None = Returns r
    /\ List.length (months r) = 15%nat.
Proof.
  destruct (getTimelineRange_default_window 43200000 16 ltac:(lia))
    as (r & Hr & _ & _ & _ & Hlen & _).
  exists r. split; assumption.
Defined.

(** C10: when the first of the month of [customEnd] is before the
    first of the month of [customStart], [getTimelineRange] raises no
    error: the loop body never runs and the result holds the two
    normalised dates and an empty [months]. *)
Theorem getTimelineRange_inverted_empty
    (fuel : nat) (now customStart customEnd : Date) :
  (0 < fuel)%nat ->
  getTime (startOfMonth customEnd) < getTime (startOfMonth customStart) ->
  getTimelineRange fuel now (Some customStart) (Some customEnd)
  = Returns (mkRange (startOfMonth customStart) (startOfMonth customEnd) []).
Proof.
  intros Hfuel Hlt. unfold getTimelineRange.
  destruct fuel as [|fuel]; [lia|].
  cbn [monthsLoop]. unfold date_leb.
  destruct (Z.leb_spec (getTime (startOfMonth customStart))
              (getTime (startOfMonth customEnd))); [lia|reflexivity].
Qed.

Lemma getTimelineRange_inverted_empty_witness :
  getTimelineRange 1 (ymd 2024 5 15) (Some (ymd 2024 6 15)) (Some (ymd 2024 1 20))
  = Returns (mkRange (ymd 2024 6 1) (ymd 2024 1 1) []).
Proof.
  apply (getTimelineRange_inverted_empty 1 (ymd 2024 5 15)
           (ymd 2024 6 15) (ymd 2024 1 20)).
  - lia.
  - vm_compute. reflexivity.
Defined.

(** C5, as the specification states it, fails: for June 2024 as start
    and January 2024 as end the normalised end precedes the normalised
    start and the call returns a range instead of failing with
    [InvalidRangeError]. *)
Lemma getTimelineRange_inverted_returns :
  getTime (startOfMonth (ymd 2024 1 20)) < getTime (startOfMonth (ymd 2024 6 15))
  /\ getTimelineRange 1 (ymd 2024 5 15) (Some (ymd 2024 6 15)) (Some (ymd 2024 1 20))
     = Returns (mkRange (ymd 2024 6 1) (ymd 2024 1 1) [])
  /\ getTimelineRange 1 (ymd 2024 5 15) (Some (ymd 2024 6 15)) (Some (ymd 2024 1 20))
     <> Throws InvalidRangeError.
Proof.
  split; [vm_compute; reflexivity|].
  split; [vm_compute; reflexivity|].
  vm_compute. discriminate.
Qed.

(** C5, amended: [getTimelineRange] has no failing path; on an inverted
    pair it returns.  The check of the range is made before the call,
    by [handleSubmit] of the date-range dialog: when the new end month
    is before the new start month it shows the alert and stops, calling
    neither [onSave] nor [onClose]. *)
Theorem inverted_range_stopped_in_dialog
    (fuel : nat) (now customStart customEnd : Date) (s e : Z * Z) :
  (0 < fuel)%nat ->
  getTime (startOfMonth customEnd) < getTime (startOfMonth customStart) ->
  getTime (firstOfMonth e) < getTime (firstOfMonth s) ->
  (exists r, getTimelineRange fuel now (Some customStart) (Some customEnd)
             = Returns r)
  /\ (forall err, getTimelineRange fuel now (Some customStart) (Some customEnd)
                  <> Throws err)
  /\ handleSubmit (Some s) (Some e)
     = [preventDefault; alert "End date must be after start date"%string].
Proof.
  intros Hfuel Hrange Hmodal.
  rewrite (getTimelineRange_inverted_empty fuel now customStart customEnd
             Hfuel Hrange).
  split; [eexists; reflexivity|]. split; [discriminate|].
  unfold handleSubmit, date_ltb.
  destruct (Z.ltb_spec (getTime (firstOfMonth e)) (getTime (firstOfMonth s)));
    [reflexivity | lia].
Qed.

Lemma inverted_range_stopped_in_dialog_witness :
  (exists r, getTimelineRange 1 (ymd 2024 5 15) (Some (ymd 2024 6 15))
               (Some (ymd 2024 1 20)) = Returns r)
  /\ (forall err, getTimelineRange 1 (ymd 2024 5 15) (Some (ymd 2024 6 15))
                    (Some (ymd 2024 1 20)) <> Throws err)
  /\ handleSubmit (Some (2024, 6)) (Some (2024, 1))
     = [preventDefault; alert "End date must be after start date"%string].
Proof.
  apply (inverted_range_stopped_in_dialog 1 (ymd 2024 5 15)
           (ymd 2024 6 15) (ymd 2024 1 20) (2024, 6) (2024, 1)).
  - lia.
  - vm_compute. reflexivity.
  - vm_compute. reflexivity.
Defined.
End DateHelpersFacts.

(* ================================================================= *)
(** ** components/Timeline.tsx: the bars of a row                     *)
(* ================================================================= *)

Module TimelineFacts.
Import DateFns DateHelpers Timeline Scenarios.
Import DateFnsFacts PercentFacts RenewalFacts DateHelpersFacts.

Lemma projectNextRenewal_wf startD c today :
  wfDate startD -> wfDate (projectNextRenewal startD c today).
Proof.
  intros Hwf.
  destruct (Z.le_gt_cases (getTime startD) (getTime today)) as [Hle|Hgt].
  - destruct (projectNextRenewal_past startD c today Hle)
      as (n & _ & _ & -> & _).
    apply renewals_wf; assumption.
  - rewrite projectNextRenewal_future by assumption.
    apply advance_wf; assumption.
Qed.

(** The right edge of a bar: either the width is 0, or the bar ends at
    most one day after the window. *)
Lemma bar_end_cases sd v start endD :
  wfDate sd -> wfOption v -> wfDate start -> wfDate endD ->
  let T := differenceInDays endD start in
  (0 < T)%Z ->
  getWidthPercentage sd v start endD T = 0%Q
  \/ (0 < getWidthPercentage sd v start endD T
      /\ getPositionPercentage sd start T + getWidthPercentage sd v start endD T
         <= 100 + 100 / inject_Z T)%Q.
Proof.
  intros Hsd Hv Hstart Hend T HT. subst T.
  set (T := differenceInDays endD start) in *.
  unfold getWidthPercentage, getPositionPercentage.
  set (effectiveEnd := match v with
                       | Some e => if date_gtb e endD then endD else e
                       | None => endD
                       end).
  assert (HeffEnd : wfDate effectiveEnd /\ (getTime effectiveEnd <= getTime endD)%Z).
  { unfold effectiveEnd, date_gtb. destruct v as [e|]; [|split; [assumption|lia]].
    destruct (Z.ltb_spec (getTime endD) (getTime e)); split;
      try assumption; lia. }
  destruct HeffEnd as [HwfE HleE].
  assert (Hfull : (inject_Z (T + 1) / inject_Z T * 100
                   == 100 + 100 / inject_Z T)%Q).
  { rewrite percent_plus, percent_full, percent_one by assumption. reflexivity. }
  unfold date_ltb.
  destruct (Z.ltb_spec (getTime sd) (getTime start)) as [Hbefore|Hinside].
  - destruct (Z.ltb_spec (getTime effectiveEnd) (getTime start)) as [|Hle];
      [left; reflexivity | right].
    pose proof (differenceInDays_nonneg effectiveEnd start HwfE Hstart Hle).
    pose proof (differenceInDays_mono effectiveEnd endD start HwfE Hend Hstart HleE).
    split.
    + rewrite percent_plus.
      pose proof (percent_nonneg (differenceInDays effectiveEnd start) T
                    ltac:(assumption) HT).
      pose proof (percent_one_pos T HT). lra.
    + rewrite Qplus_0_l, <- Hfull. apply percent_mono; [lia | exact HT].
  - destruct (Z.ltb_spec (getTime effectiveEnd) (getTime sd)) as [|Hle];
      [left; reflexivity | right].
    pose proof (differenceInDays_nonneg effectiveEnd sd HwfE Hsd Hle).
    pose proof (differenceInDays_chain effectiveEnd sd start HwfE Hsd Hstart
                  Hinside Hle).
    pose proof (differenceInDays_mono effectiveEnd endD start HwfE Hend Hstart HleE).
    split.
    + rewrite percent_plus.
      pose proof (percent_nonneg (differenceInDays effectiveEnd sd) T
                    ltac:(assumption) HT).
      pose proof (percent_one_pos T HT). lra.
    + rewrite <- percent_plus, <- Hfull.
      apply percent_mono; [lia | exact HT].
Qed.


Lemma Qle_bool_false x y : Qle_bool x y = false -> (y < x)%Q.
Proof.
  intros H. apply Qnot_le_lt. intros Hle.
  apply Qle_bool_iff in Hle. congruence.
Qed.

Section Bounds.
Variables (sub : Subscription) (start endD today : Date).
Hypothesis Hsub : wellFormed sub.
Hypothesis Hstart : wfDate start.
Hypothesis Hend : wfDate endD.
Let T := differenceInDays endD start.
Hypothesis HT : (0 < T)%Z.

Lemma visualEndDate_wf : wfOption (visualEndDate sub endD today).
Proof.
  destruct Hsub as [Hsd He]. unfold visualEndDate.
  destruct (autoRenew sub); [exact Hend|].
  destruct (endDate sub) as [e|]; [apply He|].
  cbn. destruct (date_gtb _ _); [|exact Hend].
  apply projectNextRenewal_wf, Hsd.
Qed.

Lemma solidEndDate_after_start :
  wfDate (solidEndDate sub today)
  /\ (getTime (startDate sub) <= getTime (solidEndDate sub today))%Z.
Proof.
  destruct Hsub as [Hsd He]. unfold solidEndDate.
  destruct (endDate sub) as [e|]; [exact He|].
  split; [apply projectNextRenewal_wf, Hsd|].
  apply Z.lt_le_incl, projectNextRenewal_after_start, Hsd.
Qed.

End Bounds.

(** C1 (scenario B): window 2024-01-01 to 2025-03-01, start 2024-06-01,
    end 2024-12-01, autoRenew off.  Whatever [today] is, the row renders
    two bars: the active one, ending at the position of the end date,
    and a [future] one after it, one day wide, although [hasFuture] is
    false. *)
Theorem scenarioB_renders_future_bar (today : Date) :
  let T := differenceInDays scenarioEnd scenarioStart in
  let bars := renderedBars scenarioB scenarioStart scenarioEnd T today in
  T = 425
  /\ autoRenew scenarioB = false
  /\ hasFuture scenarioB scenarioStart scenarioEnd T today = false
  /\ map barType bars = [active; future]
  /\ exists a f,
       bars = [a; f]
       /\ (barLeft a + barWidth a
           == getPositionPercentage (ymd 2024 12 1) scenarioStart T)%Q
       /\ (barLeft f == getPositionPercentage (ymd 2024 12 1) scenarioStart T)%Q
       /\ (barWidth f == 100 / 425)%Q.
Proof.
  cbv zeta.
  split; [reflexivity|]. split; [reflexivity|].
  split; [vm_compute; reflexivity|]. split; [vm_compute; reflexivity|].
  eexists. eexists. split; [vm_compute; reflexivity|].
  split; [|split]; vm_compute; reflexivity.
Qed.

(** C3: the quantities the row computes are those of the
    specification's [splitBar]: visualEnd is the window end under
    auto-renewal, else the later of the next renewal and the window end
    when there is no end date, else the end date; solidEnd is the end
    date, else the next renewal; barStart, barEnd and splitPoint are
    derived from them as stated. *)
Theorem SubscriptionRow_geometry
    (sub : Subscription) (start endD : Date) (totalDays : Z) (today : Date) :
  visualEndDate sub endD today = Some (Spec.visualEnd sub endD today)
  /\ getTime (Spec.visualEnd sub endD today)
     = (if autoRenew sub then getTime endD
        else match endDate sub with
             | None =>
                 Z.max (getTime (projectNextRenewal (startDate sub) (cycle sub) today))
                   (getTime endD)
             | Some e => getTime e
             end)
  /\ solidEndDate sub today = Spec.solidEnd sub today
  /\ barStartPct sub start totalDays = Spec.barStart sub start totalDays
  /\ barEndPct sub start endD totalDays today
     = Spec.barEnd sub start endD totalDays today
  /\ splitPct sub start endD totalDays today
     = Spec.splitPoint sub start endD totalDays today.
Proof.
  assert (Hv : visualEndDate sub endD today = Some (Spec.visualEnd sub endD today)).
  { unfold visualEndDate, Spec.visualEnd, Spec.date_max, rowNextRenewal, date_gtb.
    destruct (autoRenew sub); [reflexivity|].
    destruct (endDate sub); reflexivity. }
  assert (Hb : barEndPct sub start endD totalDays today
               = Spec.barEnd sub start endD totalDays today).
  { unfold barEndPct, Spec.barEnd, visualWidth.
    rewrite Hv, getWidthPercentage_eq_widthOf. reflexivity. }
  split; [exact Hv|]. split; [|split; [|split; [|split]]].
  - unfold Spec.visualEnd. destruct (autoRenew sub); [reflexivity|].
    destruct (endDate sub); [reflexivity|].
    rewrite getTime_date_max. lia.
  - reflexivity.
  - reflexivity.
  - exact Hb.
  - unfold splitPct, Spec.splitPoint. rewrite Hb. reflexivity.
Qed.



End TimelineFacts.

(* ================================================================= *)
(** ** More on getTimelineRange and the date-range dialog             *)
(* ================================================================= *)

Module RangeExtras.
Import DateFns DateHelpers Calendar DateRangeModal TimelineHeader.
Import DateFnsFacts PercentFacts DateHelpersFacts.

Lemma monthIndex_firstOfMonthAt mi : monthIndex (firstOfMonthAt mi) = mi.
Proof.
  unfold monthIndex, firstOfMonthAt. cbn [getFullYear getMonth].
  pose proof (Z.div_mod mi 12 ltac:(lia)). lia.
Qed.

Lemma startOfMonth_firstOfMonthAt d :
  monthInRange d -> startOfMonth d = firstOfMonthAt (monthIndex d).
Proof.
  intros Hm. unfold startOfMonth, firstOfMonthAt, monthIndex.
  destruct (div_mod_12 (getFullYear d) (getMonth d) Hm) as [-> ->]. reflexivity.
Qed.

Lemma monthIndex_addMonths d k : monthIndex (addMonths d k) = monthIndex d + k.
Proof.
  unfold addMonths. destruct (Z.eqb_spec k 0) as [->|Hk]; [lia|].
  set (mi := getFullYear d * 12 + getMonth d + k).
  assert (E : 12 * (mi / 12) + mi mod 12 = mi)
    by (pose proof (Z.div_mod mi 12 ltac:(lia)); lia).
  destruct (getDate d >=? getDaysInMonth (mi / 12) (mi mod 12));
    unfold monthIndex; cbn [getFullYear getMonth]; rewrite E; unfold mi; lia.
Qed.

Lemma monthInRange_addMonths d k : monthInRange d -> monthInRange (addMonths d k).
Proof.
  intros Hm. unfold addMonths, monthInRange.
  destruct (k =? 0); [exact Hm|].
  set (mi := getFullYear d * 12 + getMonth d + k).
  pose proof (Z.mod_pos_bound mi 12 ltac:(lia)).
  destruct (getDate d >=? getDaysInMonth (mi / 12) (mi mod 12)); cbn; lia.
Qed.

Lemma addMonths_firstOfMonthAt mi :
  addMonths (firstOfMonthAt mi) 1 = firstOfMonthAt (mi + 1).
Proof.
  unfold addMonths. cbn [Z.eqb].
  change (getFullYear (firstOfMonthAt mi) * 12 + getMonth (firstOfMonthAt mi) + 1)
    with (mi / 12 * 12 + mi mod 12 + 1).
  replace (mi / 12 * 12 + mi mod 12 + 1) with (mi + 1)
    by (pose proof (Z.div_mod mi 12 ltac:(lia)); lia).
  pose proof (getDaysInMonth_bounds ((mi + 1) / 12) ((mi + 1) mod 12)).
  cbn [getDate firstOfMonthAt msOfDay].
  destruct (Z.geb_spec 1 (getDaysInMonth ((mi + 1) / 12) ((mi + 1) mod 12)));
    [lia | reflexivity].
Qed.

Lemma addMonths_firstOfMonthAt_any mi k :
  addMonths (firstOfMonthAt mi) k = firstOfMonthAt (mi + k).
Proof.
  unfold addMonths. destruct (Z.eqb_spec k 0) as [->|Hk];
    [rewrite Z.add_0_r; reflexivity|].
  change (getFullYear (firstOfMonthAt mi) * 12 + getMonth (firstOfMonthAt mi) + k)
    with (mi / 12 * 12 + mi mod 12 + k).
  replace (mi / 12 * 12 + mi mod 12 + k) with (mi + k)
    by (pose proof (Z.div_mod mi 12 ltac:(lia)); lia).
  pose proof (getDaysInMonth_bounds ((mi + k) / 12) ((mi + k) mod 12)).
  cbn [getDate firstOfMonthAt msOfDay].
  destruct (Z.geb_spec 1 (getDaysInMonth ((mi + k) / 12) ((mi + k) mod 12)));
    [lia | reflexivity].
Qed.

Lemma getTime_firstOfMonthAt mi :
  getTime (firstOfMonthAt mi) = monthStart mi * msPerDay.
Proof.
  unfold getTime, dayNumber, firstOfMonthAt, monthStart.
  cbn [getFullYear getMonth getDate msOfDay]. lia.
Qed.

Lemma monthStart_lt mi mj : mi < mj -> monthStart mi < monthStart mj.
Proof.
  intros Hlt.
  pose proof (monthStart_mono (Z.to_nat (mj - mi - 1)) mi) as H.
  replace (mi + 1 + Z.of_nat (Z.to_nat (mj - mi - 1))) with mj in H by lia.
  pose proof (getDaysInMonth_bounds (mi / 12) (mi mod 12)). lia.
Qed.

Lemma firstOfMonthAt_leb mi mj :
  date_leb (firstOfMonthAt mi) (firstOfMonthAt mj) = (mi <=? mj).
Proof.
  unfold date_leb. rewrite !getTime_firstOfMonthAt. unfold msPerDay.
  destruct (Z.leb_spec mi mj) as [Hle|Hgt].
  - apply Z.leb_le.
    destruct (Z.eq_dec mi mj) as [->|Hne]; [lia|].
    pose proof (monthStart_lt mi mj ltac:(lia)). lia.
  - apply Z.leb_gt. pose proof (monthStart_lt mj mi Hgt). lia.
Qed.

Lemma monthsFrom_succ from n :
  monthsFrom from (S n) = firstOfMonthAt from :: monthsFrom (from + 1) n.
Proof.
  unfold monthsFrom. cbn [seq map]. rewrite Z.add_0_r. f_equal.
  rewrite <- seq_shift, map_map. apply map_ext. intros i. f_equal. lia.
Qed.

(** The month loop between two first-of-month dates. *)
Lemma monthsLoop_months (n : nat) : forall fuel mi mj acc,
  Z.of_nat n = Z.max 0 (mj - mi + 1) -> (n < fuel)%nat ->
  monthsLoop fuel (firstOfMonthAt mi) (firstOfMonthAt mj) acc
  = Some (acc ++ monthsFrom mi n).
Proof.
  induction n as [|n IH]; intros fuel mi mj acc Hn Hfuel;
    (destruct fuel as [|fuel]; [lia|]); cbn [monthsLoop];
    rewrite firstOfMonthAt_leb.
  - destruct (Z.leb_spec mi mj); [lia|]. unfold monthsFrom. cbn.
    rewrite app_nil_r. reflexivity.
  - destruct (Z.leb_spec mi mj); [|lia].
    rewrite addMonths_firstOfMonthAt, (IH fuel (mi + 1) mj) by lia.
    rewrite monthsFrom_succ, <- app_assoc. reflexivity.
Qed.

Lemma monthStart_span (n : nat) mi :
  28 * Z.of_nat n <= monthStart (mi + Z.of_nat n) - monthStart mi <= 31 * Z.of_nat n.
Proof.
  induction n as [|n IH].
  - rewrite Z.add_0_r. lia.
  - replace (mi + Z.of_nat (S n)) with (mi + Z.of_nat n + 1) by lia.
    rewrite monthStart_succ.
    pose proof (getDaysInMonth_bounds ((mi + Z.of_nat n) / 12) ((mi + Z.of_nat n) mod 12)).
    lia.
Qed.

Lemma differenceInDays_firstOfMonthAt mi mj :
  differenceInDays (firstOfMonthAt mj) (firstOfMonthAt mi)
  = monthStart mj - monthStart mi.
Proof.
  rewrite differenceInDays_quot by (cbn; unfold msPerDay; lia).
  rewrite !getTime_firstOfMonthAt.
  replace (monthStart mj * msPerDay - monthStart mi * msPerDay)
    with ((monthStart mj - monthStart mi) * msPerDay) by lia.
  apply Z.quot_mul. unfold msPerDay. lia.
Qed.

Lemma rangeStart_index now customStart :
  monthInRange now -> monthInRangeOpt customStart ->
  match customStart with
  | Some c => startOfMonth c
  | None => startOfMonth (subMonths now 1)
  end = firstOfMonthAt (startIndex now customStart).
Proof.
  intros Hnow Hc. destruct customStart as [c|]; cbn [startIndex].
  - apply startOfMonth_firstOfMonthAt, Hc.
  - unfold subMonths.
    rewrite startOfMonth_firstOfMonthAt by (apply monthInRange_addMonths, Hnow).
    rewrite monthIndex_addMonths. f_equal.
Qed.

Lemma rangeEnd_index now customEnd :
  monthInRange now -> monthInRangeOpt customEnd ->
  match customEnd with
  | Some c => startOfMonth c
  | None => startOfMonth (addMonths now 13)
  end = firstOfMonthAt (endIndex now customEnd).
Proof.
  intros Hnow Hc. destruct customEnd as [c|]; cbn [endIndex].
  - apply startOfMonth_firstOfMonthAt, Hc.
  - rewrite startOfMonth_firstOfMonthAt by (apply monthInRange_addMonths, Hnow).
    rewrite monthIndex_addMonths. reflexivity.
Qed.

Lemma getTimelineRange_closed_form fuel now customStart customEnd :
  monthInRange now -> monthInRangeOpt customStart -> monthInRangeOpt customEnd ->
  Z.max 0 (endIndex now customEnd - startIndex now customStart + 1) < Z.of_nat fuel ->
  getTimelineRange fuel now customStart customEnd
  = Returns (mkRange (firstOfMonthAt (startIndex now customStart))
               (firstOfMonthAt (endIndex now customEnd))
               (monthsFrom (startIndex now customStart)
                  (Z.to_nat (endIndex now customEnd - startIndex now customStart + 1)))).
Proof.
  intros Hnow Hs He Hfuel. unfold getTimelineRange.
  rewrite (rangeStart_index now customStart Hnow Hs),
    (rangeEnd_index now customEnd Hnow He).
  rewrite (monthsLoop_months
             (Z.to_nat (endIndex now customEnd - startIndex now customStart + 1)))
    by lia.
  reflexivity.
Qed.

(** X1: for every pair of optional dates and every [now],
    [getTimelineRange] returns once the step budget exceeds the number
    of months; the result holds the first-of-month dates of the two
    ends and, in [months], one first-of-month date per month from start
    to end inclusive, in order (none when the end month is before the
    start month). *)
Theorem getTimelineRange_months fuel now customStart customEnd :
  monthInRange now -> monthInRangeOpt customStart -> monthInRangeOpt customEnd ->
  let ms := startIndex now customStart in
  let me := endIndex now customEnd in
  Z.max 0 (me - ms + 1) < Z.of_nat fuel ->
  exists r,
    getTimelineRange fuel now customStart customEnd = Returns r
    /\ start r = firstOfMonthAt ms
    /\ end_ r = firstOfMonthAt me
    /\ months r = monthsFrom ms (Z.to_nat (me - ms + 1))
    /\ Z.of_nat (List.length (months r)) = Z.max 0 (me - ms + 1)
    /\ (forall i, (i < List.length (months r))%nat ->
          nth i (months r) (start r) = addMonths (start r) (Z.of_nat i)).
Proof.
  intros Hnow Hs He ms me Hfuel.
  eexists. split; [apply getTimelineRange_closed_form; assumption|].
  cbn [start end_ months]. fold ms me.
  split; [reflexivity|]. split; [reflexivity|]. split; [reflexivity|].
  unfold monthsFrom. rewrite length_map, length_seq. split; [lia|].
  intros i Hi.
  rewrite (nth_indep _ _ (firstOfMonthAt (ms + Z.of_nat 0)))
    by (rewrite length_map, length_seq; exact Hi).
  rewrite (map_nth (fun i => firstOfMonthAt (ms + Z.of_nat i))), seq_nth by exact Hi.
  cbn [Nat.add]. rewrite addMonths_firstOfMonthAt_any. reflexivity.
Qed.

Lemma getTimelineRange_months_witness :
  exists r,
    getTimelineRange 4 (ymd 2024 5 15) (Some (ymd 2024 11 20)) (Some (ymd 2025 1 3))
    = Returns r
    /\ months r = [ymd 2024 11 1; ymd 2024 12 1; ymd 2025 1 1].
Proof.
  destruct (getTimelineRange_months 4 (ymd 2024 5 15)
              (Some (ymd 2024 11 20)) (Some (ymd 2025 1 3)))
    as (r & Hr & _ & _ & Hm & _).
  - vm_compute. split; [discriminate | reflexivity].
  - vm_compute. split; [discriminate | reflexivity].
  - vm_compute. split; [discriminate | reflexivity].
  - vm_compute. reflexivity.
  - exists r. split; [exact Hr|]. rewrite Hm. vm_compute. reflexivity.
Defined.

(** X2: called without arguments, at whatever moment, the range runs
    from the first of the month before [now] to the first of the month
    thirteen months after it, [months] has exactly 15 entries, and the
    number of days the timeline divides by is positive (between 392 and
    434). *)
Theorem getTimelineRange_default_15_months fuel now :
  monthInRange now -> (15 < fuel)%nat ->
  exists r,
    getTimelineRange fuel now None None = Returns r
    /\ start r = firstOfMonthAt (monthIndex now - 1)
    /\ end_ r = firstOfMonthAt (monthIndex now + 13)
    /\ List.length (months r) = 15%nat
    /\ 392 <= totalDaysOf r <= 434.
Proof.
  intros Hnow Hfuel.
  eexists. split.
  - apply getTimelineRange_closed_form; cbn [monthInRangeOpt startIndex endIndex];
      [exact Hnow | exact I | exact I | lia].
  - cbn [start end_ months startIndex endIndex].
    split; [reflexivity|]. split; [reflexivity|]. split.
    + unfold monthsFrom. rewrite length_map, length_seq.
      replace (monthIndex now + 13 - (monthIndex now - 1) + 1) with 15 by lia.
      reflexivity.
    + unfold totalDaysOf. cbn [start end_].
      rewrite differenceInDays_firstOfMonthAt.
      pose proof (monthStart_span 14 (monthIndex now - 1)) as H.
      replace (monthIndex now - 1 + Z.of_nat 14) with (monthIndex now + 13) in H by lia.
      lia.
Qed.

Lemma getTimelineRange_default_15_months_witness :
  exists r,
    getTimelineRange 16 (mkDate 2023 11 31 86399999) None None = Returns r
    /\ List.length (months r) = 15%nat /\ 392 <= totalDaysOf r <= 434.
Proof.
  destruct (getTimelineRange_default_15_months 16 (mkDate 2023 11 31 86399999))
    as (r & Hr & _ & _ & Hlen & Hdays).
  - vm_compute. split; [discriminate | reflexivity].
  - lia.
  - exists r. split; [exact Hr|]. split; assumption.
Defined.

Lemma handleSubmitIn_UTC startStr endStr :
  handleSubmitIn 0 startStr endStr = handleSubmit startStr endStr.
Proof. reflexivity. Qed.

Lemma firstOfMonthLocal_monthInRange tz v :
  1 <= snd v <= 12 -> monthInRange (firstOfMonthLocal tz v).
Proof.
  intros Hm. unfold firstOfMonthLocal, monthInRange.
  destruct (0 <=? tz); cbn [getMonth]; [lia|].
  apply Z.mod_pos_bound. lia.
Qed.

Lemma firstOfMonthLocal_index tz v :
  1 <= snd v <= 12 ->
  monthIndex (firstOfMonthLocal tz v) = monthValueIndex v + zoneShift tz.
Proof.
  intros Hm. unfold firstOfMonthLocal, monthIndex, monthValueIndex, zoneShift.
  destruct (0 <=? tz); cbn [getFullYear getMonth]; [lia|].
  pose proof (Z.div_mod (12 * fst v + (snd v - 1) - 1) 12 ltac:(lia)). lia.
Qed.

(** The instant is the same in every zone: local midnight of the first
    of the chosen month, moved by the offset. *)
Lemma getTime_firstOfMonthLocal tz v :
  - msPerDay < tz < msPerDay -> 1 <= snd v <= 12 ->
  getTime (firstOfMonthLocal tz v) = monthStart (monthValueIndex v) * msPerDay + tz.
Proof.
  intros Htz Hm. unfold firstOfMonthLocal, monthValueIndex.
  destruct (Z.leb_spec 0 tz) as [Hpos|Hneg].
  - unfold getTime. rewrite dayNumber_monthStart by (cbn [getMonth]; lia).
    cbn [getFullYear getMonth getDate msOfDay]. lia.
  - set (mi := 12 * fst v + (snd v - 1) - 1).
    assert (Hr : 0 <= mi mod 12 < 12) by (apply Z.mod_pos_bound; lia).
    assert (E : 12 * (mi / 12) + mi mod 12 = mi)
      by (pose proof (Z.div_mod mi 12 ltac:(lia)); lia).
    unfold getTime. rewrite dayNumber_monthStart by (cbn [getMonth]; exact Hr).
    cbn [getFullYear getMonth getDate msOfDay]. rewrite E.
    replace (12 * fst v + (snd v - 1)) with (mi + 1) by (unfold mi; lia).
    rewrite monthStart_succ. unfold msPerDay in *. lia.
Qed.

(** X3: the date-range dialog and the timeline compose, in every zone
    at a fixed offset of less than a day from UTC.  Whenever
    [handleSubmit] calls [onSave] with two dates, the end month chosen
    is not before the start month, and [getTimelineRange] on those dates
    returns the first of the month of each in local time: the chosen
    months in UTC and east of it, the months before them west of it
    (the dialog's dates are midnights UTC); in UTC the two dates come
    back unchanged.  There is one month per chosen month from start to
    end, so at least one, the first being the start; the day count the
    timeline divides by is never negative, and it is 0 exactly when the
    two chosen months are the same, which the dialog accepts. *)
Theorem dialog_range_feeds_timeline
    (tz : Z) (s e : Z * Z) (a b now : Date) (fuel : nat) :
  - msPerDay < tz < msPerDay ->
  1 <= snd s <= 12 -> 1 <= snd e <= 12 -> monthInRange now ->
  In (onSave a b) (handleSubmitIn tz (Some s) (Some e)) ->
  monthIndex b - monthIndex a + 1 < Z.of_nat fuel ->
  a = firstOfMonthLocal tz s /\ b = firstOfMonthLocal tz e
  /\ monthValueIndex s <= monthValueIndex e
  /\ exists r,
       getTimelineRange fuel now (Some a) (Some b) = Returns r
       /\ start r = firstOfMonthAt (monthValueIndex s + zoneShift tz)
       /\ end_ r = firstOfMonthAt (monthValueIndex e + zoneShift tz)
       /\ (tz = 0 -> start r = a /\ end_ r = b)
       /\ Z.of_nat (List.length (months r))
          = monthValueIndex e - monthValueIndex s + 1
       /\ nth 0 (months r) b = start r
       /\ 0 <= totalDaysOf r
       /\ (totalDaysOf r = 0 <-> s = e).
Proof.
  intros Htz Hs He Hnow Hin Hfuel.
  unfold handleSubmitIn in Hin.
  destruct (date_ltb (firstOfMonthLocal tz e) (firstOfMonthLocal tz s)) eqn:Hlt.
  { cbn in Hin. destruct Hin as [H|[H|[]]]; discriminate H. }
  cbn in Hin. destruct Hin as [H|[H|[H|[]]]]; try discriminate H.
  injection H as <- <-.
  split; [reflexivity|]. split; [reflexivity|].
  rewrite !firstOfMonthLocal_index in Hfuel by assumption.
  set (ms := monthValueIndex s) in *.
  set (me := monthValueIndex e) in *.
  set (k := zoneShift tz) in *.
  assert (Hle : ms <= me).
  { unfold date_ltb in Hlt. rewrite !getTime_firstOfMonthLocal in Hlt by assumption.
    apply Z.ltb_ge in Hlt. fold ms me in Hlt. unfold msPerDay in Hlt.
    destruct (Z.le_gt_cases ms me) as [|Hgt]; [assumption|].
    pose proof (monthStart_lt me ms Hgt). lia. }
  split; [exact Hle|].
  eexists. split.
  - apply getTimelineRange_closed_form;
      cbn [monthInRangeOpt startIndex endIndex];
      try (apply firstOfMonthLocal_monthInRange; assumption);
      [exact Hnow | rewrite !firstOfMonthLocal_index by assumption; fold ms me k; lia].
  - cbn [start end_ months startIndex endIndex].
    rewrite !firstOfMonthLocal_index by assumption. fold ms me k.
    split; [reflexivity|]. split; [reflexivity|]. split.
    { intros ->. unfold k, zoneShift, firstOfMonthLocal, ms, me, monthValueIndex,
        firstOfMonthAt.
      cbn [Z.leb Z.compare]. rewrite !Z.add_0_r.
      destruct (div_mod_12 (fst s) (snd s - 1) ltac:(lia)) as [-> ->].
      destruct (div_mod_12 (fst e) (snd e - 1) ltac:(lia)) as [-> ->].
      split; reflexivity. }
    replace (me + k - (ms + k) + 1) with (me - ms + 1) by lia.
    replace (Z.to_nat (me - ms + 1)) with (S (Z.to_nat (me - ms))) by lia.
    rewrite monthsFrom_succ. cbn [List.length nth].
    unfold monthsFrom. rewrite length_map, length_seq.
    split; [lia|]. split; [reflexivity|].
    unfold totalDaysOf. cbn [start end_].
    rewrite differenceInDays_firstOfMonthAt.
    destruct (Z.eq_dec ms me) as [E|Hne].
    + rewrite E. split; [lia|]. split; [intros _|lia].
      unfold ms, me, monthValueIndex in E.
      destruct s, e; cbn [fst snd] in *. f_equal; lia.
    + pose proof (monthStart_lt (ms + k) (me + k) ltac:(lia)).
      split; [lia|]. split; [lia|].
      intros ->. unfold ms, me in Hne. lia.
Qed.

Lemma dialog_range_feeds_timeline_witness :
  (exists r,
     getTimelineRange 2 (ymd 2024 5 15)
       (Some (mkDate 2024 5 1 32400000)) (Some (mkDate 2024 5 1 32400000))
     = Returns r
     /\ start r = ymd 2024 6 1 /\ totalDaysOf r = 0)
  /\ (exists r,
        getTimelineRange 4 (ymd 2024 5 15)
          (Some (mkDate 2024 4 31 68400000)) (Some (mkDate 2024 6 31 68400000))
        = Returns r
        /\ start r = ymd 2024 5 1 /\ end_ r = ymd 2024 7 1
        /\ List.length (months r) = 3%nat).
Proof.
  split.
  - destruct (dialog_range_feeds_timeline 32400000 (2024, 6) (2024, 6)
                (mkDate 2024 5 1 32400000) (mkDate 2024 5 1 32400000)
                (ymd 2024 5 15) 2)
      as (_ & _ & _ & r & Hr & Hstart & _ & _ & _ & _ & _ & Hzero).
    + vm_compute. split; reflexivity.
    + cbn. lia.
    + cbn. lia.
    + vm_compute. split; [discriminate | reflexivity].
    + vm_compute. right. left. reflexivity.
    + vm_compute. reflexivity.
    + exists r. split; [exact Hr|]. split; [exact Hstart|].
      apply Hzero. reflexivity.
  - destruct (dialog_range_feeds_timeline (-18000000) (2024, 6) (2024, 8)
                (mkDate 2024 4 31 68400000) (mkDate 2024 6 31 68400000)
                (ymd 2024 5 15) 4)
      as (_ & _ & _ & r & Hr & Hstart & Hend & _ & Hlen & _).
    + vm_compute. split; reflexivity.
    + cbn. lia.
    + cbn. lia.
    + vm_compute. split; [discriminate | reflexivity].
    + vm_compute. right. left. reflexivity.
    + vm_compute. reflexivity.
    + exists r. split; [exact Hr|]. split; [exact Hstart|]. split; [exact Hend|].
      apply Nat2Z.inj. rewrite Hlen. reflexivity.
Defined.
End RangeExtras.

(* ================================================================= *)
(** ** More on positions, widths and the bars of a row                *)
(* ================================================================= *)

Module GeometryExtras.
Import DateFns DateHelpers Timeline TimelineV1 Scenarios.
Import DateFnsFacts PercentFacts RenewalFacts DateHelpersFacts TimelineFacts.
Local Open Scope Q_scope.

(** X4: positions are monotone: of two dates, the later one is never
    drawn to the left of the earlier one. *)
Theorem getPositionPercentage_monotone (a b timelineStart : Date) (totalDays : Z) :
  wfDate a -> wfDate b -> wfDate timelineStart -> (0 < totalDays)%Z ->
  (getTime a <= getTime b)%Z ->
  getPositionPercentage a timelineStart totalDays
  <= getPositionPercentage b timelineStart totalDays.
Proof. apply getPositionPercentage_mono. Qed.

Lemma getPositionPercentage_monotone_witness :
  getPositionPercentage (ymd 2024 6 1) (ymd 2024 1 1) 425
  <= getPositionPercentage (ymd 2024 12 1) (ymd 2024 1 1) 425.
Proof.
  apply getPositionPercentage_monotone;
    try (vm_compute; reflexivity); vm_compute; discriminate.
Defined.

(** X5: with [totalDays = differenceInDays(end, start) > 0], the start
    of the window is at 0, its end at 100, every date from start to end
    lies between 0 and 100, every earlier date is at 0 and every later
    date at 100 or more (the position is not clamped on the right). *)
Theorem getPositionPercentage_window (d start endD : Date) :
  wfDate d -> wfDate start -> wfDate endD ->
  (0 < differenceInDays endD start)%Z ->
  let T := differenceInDays endD start in
  getPositionPercentage start start T == 0
  /\ getPositionPercentage endD start T == 100
  /\ ((getTime d < getTime start)%Z -> getPositionPercentage d start T = 0)
  /\ ((getTime start <= getTime d <= getTime endD)%Z ->
      0 <= getPositionPercentage d start T <= 100)
  /\ ((getTime endD <= getTime d)%Z -> 100 <= getPositionPercentage d start T).
Proof.
  intros Hd Hs He HT T. subst T.
  set (T := differenceInDays endD start) in *.
  assert (Hse : (getTime start < getTime endD)%Z).
  { destruct (Z.lt_ge_cases (getTime start) (getTime endD)) as [|Hge]; [assumption|].
    pose proof (differenceInDays_mono endD start start He Hs Hs Hge) as H.
    rewrite differenceInDays_same in H. lia. }
  assert (Hend : getPositionPercentage endD start T == 100).
  { unfold getPositionPercentage, date_ltb.
    destruct (Z.ltb_spec (getTime endD) (getTime start)); [lia|].
    apply percent_full. exact HT. }
  assert (Hstart : getPositionPercentage start start T == 0).
  { unfold getPositionPercentage, date_ltb. rewrite Z.ltb_irrefl.
    rewrite differenceInDays_same. unfold Qdiv. ring. }
  split; [exact Hstart|]. split; [exact Hend|]. split; [|split].
  - intros Hlt. unfold getPositionPercentage, date_ltb.
    destruct (Z.ltb_spec (getTime d) (getTime start)); [reflexivity|lia].
  - intros [Hlo Hhi]. split.
    + apply getPositionPercentage_nonneg; assumption.
    + rewrite <- Hend. apply getPositionPercentage_mono; assumption.
  - intros Hge. rewrite <- Hend. apply getPositionPercentage_mono; assumption.
Qed.

Lemma getPositionPercentage_window_witness :
  0 <= getPositionPercentage scenarioToday scenarioStart
         (differenceInDays scenarioEnd scenarioStart) <= 100.
Proof.
  apply (getPositionPercentage_window scenarioToday scenarioStart scenarioEnd);
    try (vm_compute; reflexivity).
  vm_compute. split; discriminate.
Defined.

Lemma width_zero_or_one_day sd ed start endD T :
  wfDate sd -> wfOption ed -> wfDate start -> wfDate endD -> (0 < T)%Z ->
  getWidthPercentage sd ed start endD T = 0
  \/ 100 / inject_Z T <= getWidthPercentage sd ed start endD T.
Proof.
  intros Hsd Hed Hs He HT. unfold getWidthPercentage.
  set (effectiveStart := if date_ltb sd start then start else sd).
  set (effectiveEnd := match ed with
                       | Some e => if date_gtb e endD then endD else e
                       | None => endD
                       end).
  assert (HwfS : wfDate effectiveStart)
    by (unfold effectiveStart; destruct (date_ltb sd start); assumption).
  assert (HwfE : wfDate effectiveEnd).
  { unfold effectiveEnd. destruct ed as [e|]; [|assumption].
    destruct (date_gtb e endD); assumption. }
  unfold date_ltb.
  destruct (Z.ltb_spec (getTime effectiveEnd) (getTime effectiveStart)) as [|Hle];
    [left; reflexivity | right].
  pose proof (differenceInDays_nonneg effectiveEnd effectiveStart HwfE HwfS Hle).
  rewrite <- percent_one. apply percent_mono; [lia | exact HT].
Qed.

Lemma getWidthPercentage_bounds_aux (sd : Date) (ed : option Date) (start endD : Date) :
  wfDate sd -> wfOption ed -> wfDate start -> wfDate endD ->
  (0 < differenceInDays endD start)%Z ->
  let T := differenceInDays endD start in
  let w := getWidthPercentage sd ed start endD T in
  0 <= w <= 100 + 100 / inject_Z T
  /\ ((getTime endD < getTime sd)%Z -> w = 0)
  /\ (forall e, ed = Some e -> (getTime e < getTime start)%Z -> w = 0)
  /\ (forall e, ed = Some e -> (getTime e < getTime sd)%Z -> w = 0)
  /\ (w = 0 \/ (100 / inject_Z T <= w
               /\ getPositionPercentage sd start T + w <= 100 + 100 / inject_Z T)).
Proof.
  intros Hsd Hed Hs He HT T w. subst w T.
  set (T := differenceInDays endD start) in *.
  pose proof (bar_end_cases sd ed start endD Hsd Hed Hs He HT) as Hcases.
  fold T in Hcases.
  pose proof (getPositionPercentage_nonneg sd start T Hsd Hs HT) as Hpos.
  assert (Hday : 0 < 100 / inject_Z T).
  { rewrite <- percent_one. apply percent_one_pos, HT. }
  assert (Hse : (getTime start < getTime endD)%Z).
  { destruct (Z.lt_ge_cases (getTime start) (getTime endD)) as [|Hge]; [assumption|].
    pose proof (differenceInDays_mono endD start start He Hs Hs Hge) as H.
    rewrite differenceInDays_same in H. lia. }
  split; [|split; [|split; [|split]]].
  - destruct Hcases as [->|[Hw Hb]]; lra.
  - intros Hafter. unfold getWidthPercentage, date_ltb, date_gtb.
    destruct (Z.ltb_spec (getTime sd) (getTime start)); [lia|].
    destruct ed as [e|].
    + destruct (Z.ltb_spec (getTime endD) (getTime e)).
      * destruct (Z.ltb_spec (getTime endD) (getTime sd)); [reflexivity|lia].
      * destruct (Z.ltb_spec (getTime e) (getTime sd)); [reflexivity|lia].
    + destruct (Z.ltb_spec (getTime endD) (getTime sd)); [reflexivity|lia].
  - intros e -> Hbefore. unfold getWidthPercentage, date_ltb, date_gtb.
    destruct (Z.ltb_spec (getTime endD) (getTime e)); [lia|].
    destruct (Z.ltb_spec (getTime sd) (getTime start)).
    + destruct (Z.ltb_spec (getTime e) (getTime start)); [reflexivity|lia].
    + destruct (Z.ltb_spec (getTime e) (getTime sd)); [reflexivity|lia].
  - intros e -> Hbefore. unfold getWidthPercentage, date_ltb, date_gtb.
    destruct (Z.ltb_spec (getTime sd) (getTime start)).
    + destruct (Z.ltb_spec (getTime endD) (getTime e)).
      * destruct (Z.ltb_spec (getTime endD) (getTime start)); [reflexivity|lia].
      * destruct (Z.ltb_spec (getTime e) (getTime start)); [reflexivity|].
        lia.
    + destruct (Z.ltb_spec (getTime endD) (getTime e)).
      * destruct (Z.ltb_spec (getTime endD) (getTime sd)); [reflexivity|lia].
      * destruct (Z.ltb_spec (getTime e) (getTime sd)); [reflexivity|lia].
  - destruct (width_zero_or_one_day sd ed start endD T Hsd Hed Hs He HT)
      as [Hz|Hday1]; [left; exact Hz|].
    destruct Hcases as [Hz|[Hw Hb]]; [left; exact Hz|].
    right. split; assumption.
Qed.

Lemma width_one_day_inside sd ed start endD T :
  wfDate sd -> wfOption ed -> wfDate start -> wfDate endD -> (0 < T)%Z ->
  (getTime start <= getTime endD)%Z ->
  (getTime sd <= getTime endD)%Z ->
  (forall e, ed = Some e ->
     (getTime start <= getTime e)%Z /\ (getTime sd <= getTime e)%Z) ->
  100 / inject_Z T <= getWidthPercentage sd ed start endD T.
Proof.
  intros Hsd Hed Hs He HT Hwin Hbefore Hend. unfold getWidthPercentage.
  set (effectiveStart := if date_ltb sd start then start else sd).
  set (effectiveEnd := match ed with
                       | Some e => if date_gtb e endD then endD else e
                       | None => endD
                       end).
  assert (HwfS : wfDate effectiveStart)
    by (unfold effectiveStart; destruct (date_ltb sd start); assumption).
  assert (HwfE : wfDate effectiveEnd).
  { unfold effectiveEnd. destruct ed as [e|]; [|assumption].
    destruct (date_gtb e endD); assumption. }
  assert (HS : (getTime effectiveStart = Z.max (getTime sd) (getTime start))%Z).
  { unfold effectiveStart, date_ltb.
    destruct (Z.ltb_spec (getTime sd) (getTime start)); lia. }
  assert (HE : (getTime effectiveStart <= getTime effectiveEnd)%Z).
  { rewrite HS. unfold effectiveEnd. destruct ed as [e|]; [|lia].
    destruct (Hend e eq_refl) as [H1 H2]. unfold date_gtb.
    destruct (Z.ltb_spec (getTime endD) (getTime e)); lia. }
  unfold date_ltb.
  destruct (Z.ltb_spec (getTime effectiveEnd) (getTime effectiveStart)) as [|Hle];
    [lia|].
  pose proof (differenceInDays_nonneg effectiveEnd effectiveStart HwfE HwfS Hle).
  rewrite <- percent_one. apply percent_mono; [lia | exact HT].
Qed.

(** X6: with [totalDays = differenceInDays(end, start) > 0], a width is
    never negative and never more than 100 + 100/totalDays.  It is 0
    when the interval starts after the window, ends before the window or
    ends before it starts.  In every other case, that is when the start
    is not after the end of the window and the end date, if there is
    one, is before neither the start of the window nor the start date,
    the width is at least 100/totalDays (one day) and position plus
    width stays within 100 + 100/totalDays. *)
Theorem getWidthPercentage_bounds (sd : Date) (ed : option Date) (start endD : Date) :
  wfDate sd -> wfOption ed -> wfDate start -> wfDate endD ->
  (0 < differenceInDays endD start)%Z ->
  let T := differenceInDays endD start in
  let w := getWidthPercentage sd ed start endD T in
  0 <= w <= 100 + 100 / inject_Z T
  /\ ((getTime endD < getTime sd)%Z -> w = 0)
  /\ (forall e, ed = Some e -> (getTime e < getTime start)%Z -> w = 0)
  /\ (forall e, ed = Some e -> (getTime e < getTime sd)%Z -> w = 0)
  /\ ((getTime sd <= getTime endD)%Z ->
      (forall e, ed = Some e ->
         (getTime start <= getTime e)%Z /\ (getTime sd <= getTime e)%Z) ->
      100 / inject_Z T <= w
      /\ getPositionPercentage sd start T + w <= 100 + 100 / inject_Z T).
Proof.
  intros Hsd Hed Hs He HT T w.
  destruct (getWidthPercentage_bounds_aux sd ed start endD Hsd Hed Hs He HT)
    as (Hrange & Hafter & Hbefore & Hinverted & Hcases).
  fold T in Hrange, Hafter, Hbefore, Hinverted, Hcases.
  fold w in Hrange, Hafter, Hbefore, Hinverted, Hcases.
  split; [exact Hrange|]. split; [exact Hafter|].
  split; [exact Hbefore|]. split; [exact Hinverted|].
  intros Hin Hend.
  assert (Hse : (getTime start <= getTime endD)%Z).
  { destruct (Z.le_gt_cases (getTime start) (getTime endD)) as [|Hgt]; [assumption|].
    pose proof (differenceInDays_mono endD start start He Hs Hs ltac:(lia)) as H.
    rewrite differenceInDays_same in H. lia. }
  pose proof (width_one_day_inside sd ed start endD T Hsd Hed Hs He HT Hse Hin Hend)
    as Hday.
  fold w in Hday.
  assert (Hpos : 0 < 100 / inject_Z T).
  { rewrite <- percent_one. apply percent_one_pos, HT. }
  split; [exact Hday|].
  destruct Hcases as [Hz|[_ Hb]]; [|exact Hb].
  rewrite Hz in Hday. lra.
Qed.

Lemma getWidthPercentage_bounds_witness :
  100 / inject_Z (differenceInDays scenarioEnd scenarioStart)
  <= getWidthPercentage (ymd 2023 6 1) (Some (ymd 2026 1 1))
       scenarioStart scenarioEnd (differenceInDays scenarioEnd scenarioStart)
  /\ getWidthPercentage (ymd 2023 6 1) (Some (ymd 2023 12 31))
       scenarioStart scenarioEnd (differenceInDays scenarioEnd scenarioStart) = 0.
Proof.
  split.
  - destruct (getWidthPercentage_bounds (ymd 2023 6 1) (Some (ymd 2026 1 1))
                scenarioStart scenarioEnd)
      as (_ & _ & _ & _ & Hinside); [vm_compute; reflexivity .. |].
    destruct Hinside as [Hday _].
    + vm_compute. discriminate.
    + intros e [= <-]. vm_compute. split; discriminate.
    + exact Hday.
  - destruct (getWidthPercentage_bounds (ymd 2023 6 1) (Some (ymd 2023 12 31))
                scenarioStart scenarioEnd)
      as (_ & _ & Hbefore & _); [vm_compute; reflexivity .. |].
    apply (Hbefore (ymd 2023 12 31) eq_refl). vm_compute. reflexivity.
Defined.

Lemma Qle_bool_true x y : x <= y -> Qle_bool x y = true.
Proof. apply Qle_bool_iff. Qed.

Lemma Qle_bool_lt x y : y < x -> Qle_bool x y = false.
Proof.
  intros Hlt. destruct (Qle_bool x y) eqn:E; [|reflexivity].
  apply Qle_bool_iff in E. lra.
Qed.

(** X7: the shape of a row, for every subscription and window with
    [totalDays] other than 0 (the percentages divide by it).  At most
    two bars are rendered, an active one first and a future one second;
    a rendered
    bar is more than 0.001 wide; the active bar starts at the bar start
    and ends at the split point, the future bar starts at the split
    point and ends at the bar end, so two rendered bars meet at the
    split point; then the future bar has a flat left edge and the
    active bar a flat right edge exactly when auto-renewal is on. *)
Theorem renderedBars_shape
    (sub : Subscription) (start endD : Date) (totalDays : Z) (today : Date) :
  totalDays <> 0%Z ->
  let bars := renderedBars sub start endD totalDays today in
  let P := barStartPct sub start totalDays in
  let S := splitPct sub start endD totalDays today in
  let E := barEndPct sub start endD totalDays today in
  (bars = []
   \/ (exists a, bars = [a] /\ barType a = active)
   \/ (exists f, bars = [f] /\ barType f = future)
   \/ (exists a f, bars = [a; f] /\ barType a = active /\ barType f = future
                   /\ barLeft a + barWidth a == barLeft f
                   /\ flatLeft f = true /\ flatRight a = autoRenew sub))
  /\ (forall b, In b bars ->
        (1 # 1000) < barWidth b
        /\ (barType b = active -> barLeft b = P /\ barLeft b + barWidth b == S)
        /\ (barType b = future -> barLeft b = S /\ barLeft b + barWidth b == E))
  /\ ((exists b, In b bars /\ barType b = active) <-> P + (1 # 1000) < S)
  /\ ((exists b, In b bars /\ barType b = future) <-> S + (1 # 1000) < E).
Proof.
  intros _ bars P S E. subst bars.
  unfold renderedBars, renderBar. fold P S E.
  destruct (Qle_bool S (P + (1 # 1000))) eqn:Ha;
    destruct (Qle_bool E (S + (1 # 1000))) eqn:Hf;
    try apply Qle_bool_false in Ha; try apply Qle_bool_false in Hf;
    try apply Qle_bool_iff in Ha; try apply Qle_bool_iff in Hf;
    cbn [app isActive negb andb].
  - split; [left; reflexivity|]. split; [intros b []|].
    split; (split; [intros (b & [] & _) | intros H; lra]).
  - split; [right; right; left; eexists; split; reflexivity|].
    split; [|split].
    + intros b [<-|[]]. cbn [barWidth barLeft barType].
      split; [lra|]. split; [discriminate|]. intros _. split; [reflexivity|ring].
    + split; [intros (b & [<-|[]] & Hb); discriminate Hb | intros H; lra].
    + split; [intros _; exact Hf | intros _; eexists; split; [left; reflexivity|reflexivity]].
  - split; [right; left; eexists; split; reflexivity|].
    split; [|split].
    + intros b [<-|[]]. cbn [barWidth barLeft barType].
      split; [lra|]. split; [|discriminate]. intros _. split; [reflexivity|ring].
    + split; [intros _; exact Ha | intros _; eexists; split; [left; reflexivity|reflexivity]].
    + split; [intros (b & [<-|[]] & Hb); discriminate Hb | intros H; lra].
  - split.
    + right; right; right. eexists. eexists.
      split; [reflexivity|]. cbn [barWidth barLeft barType flatLeft flatRight].
      split; [reflexivity|]. split; [reflexivity|]. split; [ring|].
      unfold hasActive, hasFuture. fold P S E.
      rewrite (Qle_bool_lt S P) by lra. rewrite (Qle_bool_lt E S) by lra.
      split; [reflexivity|]. cbn [negb]. apply andb_true_r.
    + split; [|split].
      * intros b [<-|[<-|[]]]; cbn [barWidth barLeft barType];
          (split; [lra|]); split; try discriminate; intros _;
          (split; [reflexivity|ring]).
      * split; [intros _; exact Ha | intros _; eexists; split; [left; reflexivity|reflexivity]].
      * split; [intros _; exact Hf
               | intros _; eexists; split; [right; left; reflexivity|reflexivity]].
Qed.

Lemma renderedBars_shape_witness :
  (exists b,
     In b (renderedBars scenarioB scenarioStart scenarioEnd
             (differenceInDays scenarioEnd scenarioStart) scenarioToday)
     /\ barType b = future)
  <-> splitPct scenarioB scenarioStart scenarioEnd
        (differenceInDays scenarioEnd scenarioStart) scenarioToday + (1 # 1000)
      < barEndPct scenarioB scenarioStart scenarioEnd
          (differenceInDays scenarioEnd scenarioStart) scenarioToday.
Proof.
  destruct (renderedBars_shape scenarioB scenarioStart scenarioEnd
              (differenceInDays scenarioEnd scenarioStart) scenarioToday)
    as (_ & _ & _ & Hfuture).
  - vm_compute. discriminate.
  - exact Hfuture.
Defined.

Lemma renderedBars_none sub start endD totalDays today :
  splitPct sub start endD totalDays today
    <= barStartPct sub start totalDays + (1 # 1000) ->
  barEndPct sub start endD totalDays today
    <= splitPct sub start endD totalDays today + (1 # 1000) ->
  renderedBars sub start endD totalDays today = [].
Proof.
  intros Ha Hf. unfold renderedBars, renderBar.
  rewrite (Qle_bool_true _ _ Ha), (Qle_bool_true _ _ Hf). reflexivity.
Qed.

(** X8 (scenario C in general): in a window whose day count
    [differenceInDays(end, start)] is positive, a well-formed
    subscription that starts after the end of the window has width 0 and
    no bar at all. *)
Theorem starts_after_window_renders_nothing
    (sub : Subscription) (start endD today : Date) :
  wellFormed sub -> wfDate start -> wfDate endD ->
  (0 < differenceInDays endD start)%Z ->
  (getTime endD < getTime (startDate sub))%Z ->
  let T := differenceInDays endD start in
  rowWidth sub start endD T = 0
  /\ visualWidth sub start endD T today = 0
  /\ renderedBars sub start endD T today = [].
Proof.
  intros Hsub Hs He HT Hafter T. subst T.
  set (T := differenceInDays endD start) in *.
  pose proof Hsub as [Hsd Hed].
  assert (HwfEd : wfOption (endDate sub))
    by (destruct (endDate sub); [apply Hed | exact I]).
  destruct (getWidthPercentage_bounds_aux (startDate sub) (endDate sub) start endD
              Hsd HwfEd Hs He HT) as (_ & Hrow & _).
  destruct (getWidthPercentage_bounds_aux (startDate sub)
              (visualEndDate sub endD today) start endD
              Hsd (visualEndDate_wf sub endD today Hsub He) Hs He HT)
    as (_ & Hvis & _).
  fold T in Hrow, Hvis. specialize (Hrow Hafter). specialize (Hvis Hafter).
  change (visualWidth sub start endD T today = 0) in Hvis.
  split; [exact Hrow|]. split; [exact Hvis|].
  destruct (solidEndDate_after_start sub today Hsub) as [HwfS HleS].
  pose proof (getPositionPercentage_mono (startDate sub) (solidEndDate sub today)
                start T Hsd HwfS Hs HT HleS) as Hmono.
  pose proof (Q.le_min_r (solidEndPct sub start T today)
                (barEndPct sub start endD T today)) as Hmin.
  assert (Hglb : barEndPct sub start endD T today <= splitPct sub start endD T today).
  { unfold splitPct. apply Q.min_glb; [|apply Qle_refl].
    unfold barEndPct, barStartPct, rowLeft, solidEndPct.
    rewrite Hvis. lra. }
  fold (splitPct sub start endD T today) in Hmin.
  apply renderedBars_none.
  - unfold barEndPct in Hmin. rewrite Hvis in Hmin. lra.
  - lra.
Qed.

Lemma starts_after_window_renders_nothing_witness :
  renderedBars
    (mkSubscription "c" "Scenario C" 5000 "KRW" MONTHLY (ymd 2025 6 1) None
       "#10B981" None true 2 service)
    scenarioStart scenarioEnd (differenceInDays scenarioEnd scenarioStart)
    scenarioToday = [].
Proof.
  apply (starts_after_window_renders_nothing
           (mkSubscription "c" "Scenario C" 5000 "KRW" MONTHLY (ymd 2025 6 1) None
              "#10B981" None true 2 service)
           scenarioStart scenarioEnd scenarioToday).
  - split; [vm_compute; reflexivity | exact I].
  - vm_compute. reflexivity.
  - vm_compute. reflexivity.
  - vm_compute. reflexivity.
  - vm_compute. reflexivity.
Defined.

(** X9: a well-formed subscription whose end date is before the window.
    Without auto-renewal the row is empty.  With auto-renewal the row is
    one future bar that starts at 0 and is 100 + 100/totalDays wide: the
    whole window and one day more. *)
Theorem ended_before_window
    (sub : Subscription) (start endD today e : Date) :
  wellFormed sub -> wfDate start -> wfDate endD ->
  (0 < differenceInDays endD start)%Z ->
  endDate sub = Some e -> (getTime e < getTime start)%Z ->
  let T := differenceInDays endD start in
  (autoRenew sub = false -> renderedBars sub start endD T today = [])
  /\ (autoRenew sub = true ->
      exists f, renderedBars sub start endD T today = [f]
                /\ barType f = future /\ barLeft f == 0
                /\ barWidth f == 100 + 100 / inject_Z T).
Proof.
  intros Hsub Hs He HT Hed Hbefore T. subst T.
  set (T := differenceInDays endD start) in *.
  pose proof Hsub as [Hsd Hsd_e]. rewrite Hed in Hsd_e. destruct Hsd_e as [Hwfe Hle].
  assert (Hse : (getTime start < getTime endD)%Z).
  { destruct (Z.lt_ge_cases (getTime start) (getTime endD)) as [|Hge]; [assumption|].
    pose proof (differenceInDays_mono endD start start He Hs Hs Hge) as H.
    rewrite differenceInDays_same in H. lia. }
  assert (HP : barStartPct sub start T = 0).
  { unfold barStartPct, rowLeft, getPositionPercentage, date_ltb.
    destruct (Z.ltb_spec (getTime (startDate sub)) (getTime start)); [reflexivity|lia]. }
  assert (HS : solidEndPct sub start T today = 0).
  { unfold solidEndPct, solidEndDate. rewrite Hed.
    unfold getPositionPercentage, date_ltb.
    destruct (Z.ltb_spec (getTime e) (getTime start)); [reflexivity|lia]. }
  split; intros Hauto.
  - assert (HW : visualWidth sub start endD T today = 0).
    { unfold visualWidth, visualEndDate. rewrite Hauto, Hed.
      destruct (getWidthPercentage_bounds_aux (startDate sub) (Some e) start endD
                  Hsd Hwfe Hs He HT) as (_ & _ & Hz & _).
      apply (Hz e eq_refl Hbefore). }
    apply renderedBars_none; unfold splitPct, barEndPct; rewrite HP, HS, HW.
    + vm_compute. discriminate.
    + vm_compute. discriminate.
  - assert (HW : visualWidth sub start endD T today
                 = inject_Z (T + 1) / inject_Z T * 100).
    { unfold visualWidth, visualEndDate. rewrite Hauto.
      unfold getWidthPercentage, date_ltb, date_gtb.
      destruct (Z.ltb_spec (getTime (startDate sub)) (getTime start)); [|lia].
      rewrite Z.ltb_irrefl.
      destruct (Z.ltb_spec (getTime endD) (getTime start)); [lia|reflexivity]. }
    assert (Hfull : inject_Z (T + 1) / inject_Z T * 100 == 100 + 100 / inject_Z T).
    { rewrite percent_plus, percent_full, percent_one by assumption. reflexivity. }
    assert (Hday : 0 < 100 / inject_Z T)
      by (rewrite <- percent_one; apply percent_one_pos, HT).
    assert (HE : barEndPct sub start endD T today == 100 + 100 / inject_Z T).
    { unfold barEndPct. rewrite HP, HW, Hfull. ring. }
    assert (Hsplit : splitPct sub start endD T today == 0).
    { unfold splitPct. rewrite HS. apply Q.min_l. rewrite HE. lra. }
    unfold renderedBars, renderBar.
    rewrite (Qle_bool_true (splitPct sub start endD T today)
               (barStartPct sub start T + (1 # 1000))) by (rewrite HP, Hsplit; lra).
    rewrite (Qle_bool_lt (barEndPct sub start endD T today)
               (splitPct sub start endD T today + (1 # 1000)))
      by (rewrite HE, Hsplit; lra).
    cbn [app]. eexists. split; [reflexivity|].
    cbn [barType barLeft barWidth].
    split; [reflexivity|]. split; [exact Hsplit|]. rewrite HE, Hsplit. ring.
Qed.

Lemma ended_before_window_witness :
  exists f,
    renderedBars
      (mkSubscription "p" "Paid through 2023" 5000 "KRW" MONTHLY (ymd 2023 1 10)
         (Some (ymd 2023 2 10)) "#10B981" None true 2 service)
      scenarioStart scenarioEnd (differenceInDays scenarioEnd scenarioStart)
      scenarioToday = [f]
    /\ barType f = future /\ barLeft f == 0
    /\ barWidth f == 100 + 100 / inject_Z (differenceInDays scenarioEnd scenarioStart).
Proof.
  apply (ended_before_window
           (mkSubscription "p" "Paid through 2023" 5000 "KRW" MONTHLY (ymd 2023 1 10)
              (Some (ymd 2023 2 10)) "#10B981" None true 2 service)
           scenarioStart scenarioEnd scenarioToday (ymd 2023 2 10)).
  - split; [vm_compute; reflexivity|].
    split; [vm_compute; reflexivity | vm_compute; discriminate].
  - vm_compute. reflexivity.
  - vm_compute. reflexivity.
  - vm_compute. reflexivity.
  - reflexivity.
  - vm_compute. reflexivity.
  - reflexivity.
Defined.

(** X10 (Timeline.tsx without auto-renewal): the pieces of a row tile
    its bar, in a window whose day count [differenceInDays(end, start)]
    is positive.  A row
    always shows one or two pieces, also for a bar of width 0; a single
    piece is the whole bar, grey when the bar ends at or before today;
    two pieces are a grey one from the bar start to today and a coloured
    one from today to the bar end, both of positive width.  The widths
    add up to the bar's width, and no piece has a negative left edge or
    width. *)
Theorem subscriptionPieces_tile
    (sub : Subscription) (start endD today : Date) :
  wfDate (startDate sub) -> wfOption (endDate sub) ->
  wfDate start -> wfDate endD ->
  (0 < differenceInDays endD start)%Z ->
  let T := differenceInDays endD start in
  let left := getPositionPercentage (startDate sub) start T in
  let width := getWidthPercentage (startDate sub) (endDate sub) start endD T in
  let todayLeft := getPositionPercentage today start T in
  let pieces := subscriptionPieces sub start endD T today in
  ((exists p, pieces = [p] /\ pieceLeft p = left /\ pieceWidth p = width
              /\ (pieceKind p = pastPiece <-> left + width <= todayLeft))
   \/ (exists p f, pieces = [p; f]
                   /\ pieceKind p = pastPiece /\ pieceKind f = futurePiece
                   /\ pieceLeft p = left /\ pieceLeft p + pieceWidth p == todayLeft
                   /\ pieceLeft f = todayLeft
                   /\ pieceLeft f + pieceWidth f == left + width
                   /\ 0 < pieceWidth p /\ 0 < pieceWidth f))
  /\ totalWidth pieces == width
  /\ (forall p, In p pieces -> 0 <= pieceLeft p /\ 0 <= pieceWidth p).
Proof.
  intros Hsd Hed Hs He HT T left width todayLeft pieces.
  subst pieces. unfold subscriptionPieces, rowPieces. fold T left width todayLeft.
  pose proof (getPositionPercentage_nonneg (startDate sub) start T Hsd Hs HT) as Hleft.
  destruct (getWidthPercentage_bounds_aux (startDate sub) (endDate sub) start endD
              Hsd Hed Hs He HT) as ([Hw _] & _).
  fold T left width in Hleft, Hw.
  destruct (Qle_bool (left + width) todayLeft) eqn:Hpast.
  - apply Qle_bool_iff in Hpast. split; [|split].
    + left. eexists. split; [reflexivity|]. cbn.
      split; [reflexivity|]. split; [reflexivity|]. split; auto.
    + cbn. ring.
    + intros p [<-|[]]. cbn. split; assumption.
  - apply Qle_bool_false in Hpast.
    destruct (Qle_bool todayLeft left) eqn:Hfut.
    + apply Qle_bool_iff in Hfut. split; [|split].
      * left. eexists. split; [reflexivity|]. cbn.
        split; [reflexivity|]. split; [reflexivity|].
        split; [discriminate | intros H; lra].
      * cbn. ring.
      * intros p [<-|[]]. cbn. split; assumption.
    + apply Qle_bool_false in Hfut. split; [|split].
      * right. eexists. eexists. split; [reflexivity|]. cbn.
        repeat split; try reflexivity; try ring; lra.
      * cbn. ring.
      * intros p [<-|[<-|[]]]; cbn; split; lra.
Qed.

Lemma subscriptionPieces_tile_witness :
  totalWidth (subscriptionPieces scenarioB scenarioStart scenarioEnd
                (differenceInDays scenarioEnd scenarioStart) scenarioToday)
  == getWidthPercentage (startDate scenarioB) (endDate scenarioB)
       scenarioStart scenarioEnd (differenceInDays scenarioEnd scenarioStart).
Proof.
  apply (subscriptionPieces_tile scenarioB scenarioStart scenarioEnd scenarioToday);
    vm_compute; reflexivity.
Defined.
End GeometryExtras.

(* ================================================================= *)
(** ** More on the renewal projection *)
(* ================================================================= *)

Module RenewalExtras.
Import DateFns DateHelpers Timeline Spec Calendar Scenarios.
Import DateFnsFacts RenewalFacts RangeExtras.

Lemma addMonths_getDate_le d k : getDate (addMonths d k) <= getDate d.
Proof.
  unfold addMonths. destruct (k =? 0); [lia|].
  match goal with |- context [?a >=? ?b] => destruct (Z.geb_spec a b) end;
    cbn [getDate]; lia.
Qed.

Lemma addMonths_getDate_small d k :
  getDate d <= 28 -> getDate (addMonths d k) = getDate d.
Proof.
  intros Hd. unfold addMonths. destruct (k =? 0); [reflexivity|].
  match goal with
  | |- context [getDaysInMonth ?y ?m] => pose proof (getDaysInMonth_bounds y m)
  end.
  match goal with |- context [?a >=? ?b] => destruct (Z.geb_spec a b) end;
    cbn [getDate]; lia.
Qed.

Lemma advance_addMonths c d : advance c d = addMonths d (period c).
Proof. destruct c; reflexivity. Qed.

Lemma renewals_fields c n d :
  getDate (renewals c n d) <= getDate d
  /\ (getDate d <= 28 -> getDate (renewals c n d) = getDate d)
  /\ msOfDay (renewals c n d) = msOfDay d
  /\ monthIndex (renewals c n d) = monthIndex d + Z.of_nat n * period c.
Proof.
  induction n as [|n (IHle & IHeq & IHms & IHmi)]; cbn [renewals].
  - repeat split; lia.
  - rewrite advance_addMonths. split; [|split; [|split]].
    + pose proof (addMonths_getDate_le (renewals c n d) (period c)). lia.
    + intros Hd. rewrite addMonths_getDate_small; rewrite IHeq; lia.
    + rewrite msOfDay_addMonths. exact IHms.
    + rewrite monthIndex_addMonths, IHmi. lia.
Qed.

(** The projection as a number of renewals, in both branches. *)
Lemma projectNextRenewal_renewals startD c today :
  exists n : nat,
    (1 <= n <= 1000)%nat
    /\ projectNextRenewal startD c today = renewals c n startD
    /\ (forall m, (m < n)%nat ->
          getTime (renewals c m startD)
          <= Z.max (getTime today) (getTime startD)).
Proof.
  destruct (Z.le_gt_cases (getTime startD) (getTime today)) as [Hle|Hgt].
  - destruct (projectNextRenewal_past startD c today Hle)
      as (n & Hn & _ & Heq & Hbefore & _).
    exists n. split; [exact Hn|]. split; [exact Heq|].
    intros m Hm. specialize (Hbefore m Hm). lia.
  - exists 1%nat. split; [lia|].
    split; [apply projectNextRenewal_future; exact Hgt|].
    intros m Hm. replace m with 0%nat by lia. cbn [renewals]. lia.
Qed.

(** X11: the next renewal is never more than one period ahead.  It is
    one period after a date of the renewal sequence that is not after
    the later of [today] and the start date; and it is after the start
    date. *)
Theorem projectNextRenewal_one_period_ahead startD c today :
  wfDate startD ->
  getTime startD < getTime (projectNextRenewal startD c today)
  /\ exists p : Date,
       wfDate p
       /\ getTime p <= Z.max (getTime today) (getTime startD)
       /\ projectNextRenewal startD c today = advance c p
       /\ exists k : nat, p = renewals c k startD.
Proof.
  intros Hwf. split; [apply projectNextRenewal_after_start; exact Hwf|].
  destruct (projectNextRenewal_renewals startD c today) as (n & Hn & Heq & Hbefore).
  destruct n as [|n]; [lia|].
  exists (renewals c n startD). split; [apply renewals_wf; exact Hwf|].
  split; [apply Hbefore; lia|]. split; [exact Heq|].
  exists n. reflexivity.
Qed.

Lemma projectNextRenewal_one_period_ahead_witness :
  getTime (ymd 2024 6 1)
  < getTime (projectNextRenewal (ymd 2024 6 1) YEARLY scenarioToday).
Proof.
  apply (projectNextRenewal_one_period_ahead (ymd 2024 6 1) YEARLY scenarioToday).
  vm_compute. reflexivity.
Defined.

(** X12: a renewal keeps the time of day of the start date and never
    falls on a later day of the month; for a start on day 1 to 28 it
    falls on the same day of the month.  (For days 29 to 31 each short
    month lowers the day for all later renewals.) *)
Theorem projectNextRenewal_day_of_month startD c today :
  msOfDay (projectNextRenewal startD c today) = msOfDay startD
  /\ getDate (projectNextRenewal startD c today) <= getDate startD
  /\ (getDate startD <= 28 ->
      getDate (projectNextRenewal startD c today) = getDate startD).
Proof.
  destruct (projectNextRenewal_renewals startD c today) as (n & _ & -> & _).
  destruct (renewals_fields c n startD) as (Hle & Heq & Hms & _).
  split; [exact Hms|]. split; [exact Hle | exact Heq].
Qed.

Lemma projectNextRenewal_day_of_month_witness :
  getDate (projectNextRenewal (ymd 2024 1 15) MONTHLY scenarioToday) = 15.
Proof.
  apply (projectNextRenewal_day_of_month (ymd 2024 1 15) MONTHLY scenarioToday).
  vm_compute. discriminate.
Defined.

(** X13: the renewal falls [n] periods after the month of the start
    date, for some [n] from 1 to 1000; with a yearly cycle it is in the
    same calendar month, [n] years later. *)
Theorem projectNextRenewal_month startD c today :
  monthInRange startD ->
  exists n : nat,
    (1 <= n <= 1000)%nat
    /\ monthIndex (projectNextRenewal startD c today)
       = monthIndex startD + Z.of_nat n * (match c with MONTHLY => 1 | YEARLY => 12 end)
    /\ (c = YEARLY ->
        getMonth (projectNextRenewal startD c today) = getMonth startD
        /\ getFullYear (projectNextRenewal startD c today)
           = getFullYear startD + Z.of_nat n).
Proof.
  intros Hm.
  destruct (projectNextRenewal_renewals startD c today) as (n & Hn & Heq & _).
  exists n. split; [exact Hn|].
  destruct (renewals_fields c n startD) as (_ & _ & _ & Hmi).
  rewrite Heq. split; [exact Hmi|].
  intros ->. cbn [period] in Hmi.
  assert (Hr : monthInRange (renewals YEARLY n startD)).
  { clear Hmi Heq Hn. induction n; cbn [renewals]; [exact Hm|].
    apply monthInRange_addMonths. assumption. }
  unfold monthIndex, monthInRange in *. lia.
Qed.

Lemma projectNextRenewal_month_witness :
  exists n : nat,
    getMonth (projectNextRenewal (ymd 2020 2 29) YEARLY scenarioToday) = 1
    /\ getFullYear (projectNextRenewal (ymd 2020 2 29) YEARLY scenarioToday)
       = 2020 + Z.of_nat n.
Proof.
  destruct (projectNextRenewal_month (ymd 2020 2 29) YEARLY scenarioToday)
    as (n & _ & _ & Hy).
  - vm_compute. split; [discriminate | reflexivity].
  - exists n. apply Hy. reflexivity.
Defined.

(** X14: when even the 1000th renewal is not after [today], the loop
    stops on its counter and the date returned as the next renewal is
    that 1000th renewal: a date that is not in the future. *)
Theorem projectNextRenewal_capped startD c today :
  wfDate startD ->
  getTime (renewals c 1000 startD) <= getTime today ->
  projectNextRenewal startD c today = renewals c 1000 startD
  /\ capReached startD c today = true
  /\ getTime (projectNextRenewal startD c today) <= getTime today.
Proof.
  intros Hwf Hstale.
  pose proof (renewals_mono c startD Hwf 0 1000 ltac:(lia)) as H0.
  change (renewals c 0 startD) with startD in H0.
  destruct (projectNextRenewal_past startD c today ltac:(lia))
    as (n & Hn & Hrun & Heq & _ & Hstop).
  assert (En : n = 1000%nat).
  { destruct Hstop as [Hafter|E]; [|exact E].
    pose proof (renewals_mono c startD Hwf n 1000 ltac:(lia)). lia. }
  subst n. split; [exact Heq|]. split.
  - unfold capReached. rewrite Hrun. reflexivity.
  - rewrite Heq. exact Hstale.
Qed.

Lemma projectNextRenewal_capped_witness :
  getTime (projectNextRenewal (ymd 1900 1 31) MONTHLY scenarioToday)
  <= getTime scenarioToday.
Proof.
  apply (projectNextRenewal_capped (ymd 1900 1 31) MONTHLY scenarioToday).
  - vm_compute. reflexivity.
  - vm_compute. discriminate.
Defined.
End RenewalExtras.

(* ================================================================= *)
(** ** components/Summary.tsx: the totals *)
(* ================================================================= *)

Module SummaryExtras.
Import DateFns Timeline Summary Scenarios.
Local Open Scope Q_scope.

Lemma fold_statsStep now l : forall acc,
  let acc' := fold_left (statsStep now) l acc in
  serviceCount acc'
  = (serviceCount acc + Z.of_nat (List.length (filter isService l)))%Z
  /\ totalMonthly acc'
     == totalMonthly acc + sumQ (map monthlyAmount (filter (contributes now) l))
  /\ totalYearly acc'
     == totalYearly acc + sumQ (map yearlyAmount (filter (contributes now) l)).
Proof.
  induction l as [|sub l IH]; intros acc; cbn [fold_left filter map List.length].
  - unfold sumQ. cbn [fold_right Z.of_nat]. split; [lia|]. split; ring.
  - destruct (IH (statsStep now acc sub)) as (Hc & Hm & Hy).
    cbv zeta in *. rewrite Hc, Hm, Hy. clear Hc Hm Hy IH.
    unfold statsStep, contributes, isService.
    destruct (type sub); cbn [andb].
    + destruct (isActiveAt now sub); unfold sumQ;
        cbn [serviceCount totalMonthly totalYearly filter map List.length fold_right];
        (split; [lia|]); split; ring.
    + split; [lia|]. split; reflexivity.
Qed.

Lemma fold_statsStep_services now l : forall acc,
  fold_left (statsStep now) (filter isService l) acc
  = fold_left (statsStep now) l acc.
Proof.
  induction l as [|sub l IH]; intros acc; [reflexivity|].
  cbn [filter fold_left]. unfold isService at 1.
  destruct (type sub) eqn:Ht.
  - cbn [fold_left]. apply IH.
  - rewrite IH. f_equal. unfold statsStep. rewrite Ht. reflexivity.
Qed.

(** X15: what the dashboard shows.  The count is the number of service
    items, active or not; the monthly and yearly totals add the amounts
    of the service items that are active at [now] (no end date, or an
    end date after [now]); category items change nothing. *)
Theorem stats_closed_form (now : Date) (subscriptions : list Subscription) :
  count (stats now subscriptions)
  = Z.of_nat (List.length (filter isService subscriptions))
  /\ monthly (stats now subscriptions)
     == sumQ (map monthlyAmount (filter (contributes now) subscriptions))
  /\ yearly (stats now subscriptions)
     == sumQ (map yearlyAmount (filter (contributes now) subscriptions))
  /\ stats now subscriptions = stats now (filter isService subscriptions).
Proof.
  unfold stats. cbn [count monthly yearly].
  destruct (fold_statsStep now subscriptions (mkTotals 0 0 0)) as (Hc & Hm & Hy).
  cbv zeta in *. cbn [serviceCount totalMonthly totalYearly] in *.
  split; [rewrite Hc; lia|]. split; [rewrite Hm; ring|]. split; [rewrite Hy; ring|].
  rewrite <- fold_statsStep_services. reflexivity.
Qed.

Lemma stats_closed_form_aux now subscriptions :
  monthly (stats now subscriptions)
  == sumQ (map monthlyAmount (filter (contributes now) subscriptions))
  /\ yearly (stats now subscriptions)
     == sumQ (map yearlyAmount (filter (contributes now) subscriptions)).
Proof.
  unfold stats. cbn [monthly yearly].
  destruct (fold_statsStep now subscriptions (mkTotals 0 0 0)) as (_ & Hm & Hy).
  cbv zeta in *. cbn [totalMonthly totalYearly] in *.
  split; [rewrite Hm; ring | rewrite Hy; ring].
Qed.

Lemma amounts_yearly_monthly l :
  sumQ (map yearlyAmount l) == 12 * sumQ (map monthlyAmount l).
Proof.
  induction l as [|sub l IH]; unfold sumQ in *; cbn [map fold_right]; [ring|].
  rewrite IH. unfold yearlyAmount, monthlyAmount.
  destruct (cycle sub); field.
Qed.

(** X16: the yearly total is twelve times the monthly total (in exact
    arithmetic), whatever the mix of monthly and yearly items. *)
Theorem stats_yearly_is_12_monthly (now : Date) (subscriptions : list Subscription) :
  yearly (stats now subscriptions) == 12 * monthly (stats now subscriptions).
Proof.
  destruct (stats_closed_form_aux now subscriptions) as (Hm & Hy).
  rewrite Hm, Hy. apply amounts_yearly_monthly.
Qed.

(** X17: the amount printed by [formatWon] is the amount rounded up to
    the next multiple of 100: a multiple of 100, not below the amount
    and less than 100 above it; a multiple of 100 is printed as it
    is. *)
Theorem formatWonValue_rounds_up (amount : Q) :
  (formatWonValue amount mod 100 = 0)%Z
  /\ amount <= inject_Z (formatWonValue amount)
  /\ inject_Z (formatWonValue amount) < amount + 100
  /\ forall k : Z, amount == inject_Z (100 * k) -> formatWonValue amount = (100 * k)%Z.
Proof.
  unfold formatWonValue.
  assert (Hdiv : amount / 100 * 100 == amount) by field.
  pose proof (Qle_ceiling (amount / 100)) as Hle.
  pose proof (Qceiling_lt (amount / 100)) as Hlt.
  unfold Z.sub in Hlt. rewrite inject_Z_plus in Hlt.
  change (inject_Z (- (1))) with (-1) in Hlt.
  rewrite inject_Z_mult. change (inject_Z 100) with 100.
  split; [apply Z.mod_mul; lia|]. split; [|split].
  - set (q := amount / 100) in *. set (c := inject_Z (Qceiling q)) in *.
    clearbody c. clearbody q. lra.
  - set (q := amount / 100) in *. set (c := inject_Z (Qceiling q)) in *.
    clearbody c. clearbody q. lra.
  - intros k Hk.
    assert (E : amount / 100 == inject_Z k).
    { rewrite Hk, inject_Z_mult. change (inject_Z 100) with 100. field. }
    rewrite E, Qceiling_Z. lia.
Qed.
End SummaryExtras.

(* ================================================================= *)
(** ** components/Timeline.tsx: year header and sidebar *)
(* ================================================================= *)

Module HeaderExtras.
Import DateFns DateHelpers TimelineHeader Scenarios.

Lemma expandGroups_app a b : expandGroups (a ++ b) = expandGroups a ++ expandGroups b.
Proof. unfold expandGroups. apply flat_map_app. Qed.

Lemma repeat_snoc (y : Z) n : repeat y (S n) = repeat y n ++ [y].
Proof. induction n; cbn in *; [reflexivity | f_equal; assumption]. Qed.

Lemma noRepeat_snoc l a b :
  noRepeat (l ++ [a]) -> a <> b -> noRepeat ((l ++ [a]) ++ [b]).
Proof.
  intros Hl Hab i x y Hx Hy.
  assert (Hlen : List.length (l ++ [a]) = S (List.length l))
    by (rewrite length_app; cbn; lia).
  destruct (Nat.lt_ge_cases (S i) (List.length (l ++ [a]))) as [Hlt|Hge].
  - rewrite nth_error_app1 in Hx, Hy by lia. exact (Hl i x y Hx Hy).
  - rewrite (nth_error_app2 (l ++ [a])) in Hy by lia.
    assert (Hi : i = List.length l).
    { destruct (Nat.eq_dec i (List.length l)) as [|Hne]; [assumption|].
      exfalso. replace (S i - List.length (l ++ [a]))%nat
        with (S (i - List.length (l ++ [a]))) in Hy by lia.
      cbn in Hy. destruct (i - List.length (l ++ [a]))%nat; discriminate. }
    subst i. rewrite nth_error_app1 in Hx by lia.
    rewrite nth_error_app2 in Hx by lia. rewrite Nat.sub_diag in Hx.
    rewrite Hlen, Nat.sub_diag in Hy. cbn in Hx, Hy. congruence.
Qed.

Lemma closeGroups_step st month :
  1 <= currentCount st ->
  Forall (fun g => 1 <= groupCount g) (groups st) ->
  noRepeat (map year (closeGroups st)) ->
  let st' := groupStep st month in
  1 <= currentCount st'
  /\ Forall (fun g => 1 <= groupCount g) (groups st')
  /\ noRepeat (map year (closeGroups st'))
  /\ expandGroups (closeGroups st')
     = expandGroups (closeGroups st) ++ [getFullYear month].
Proof.
  intros Hc Hg Hn. unfold groupStep.
  destruct (Z.eqb_spec (getFullYear month) (currentYear st)) as [E|Hne];
    cbv zeta; cbn [currentCount groups currentYear].
  - split; [lia|]. split; [exact Hg|]. split.
    + unfold closeGroups in *. cbn [groups currentYear currentCount].
      rewrite map_app in *. exact Hn.
    + unfold closeGroups. cbn [groups currentYear currentCount].
      rewrite !expandGroups_app, <- app_assoc. f_equal.
      unfold expandGroups. cbn [flat_map year groupCount]. rewrite !app_nil_r.
      replace (Z.to_nat (currentCount st + 1)) with (S (Z.to_nat (currentCount st)))
        by lia.
      rewrite repeat_snoc, E. reflexivity.
  - split; [lia|]. split; [|split].
    + apply Forall_app. split; [exact Hg|]. constructor; [exact Hc | constructor].
    + unfold closeGroups in *. cbn [groups currentYear currentCount] in *.
      rewrite !map_app in *. cbn [map year] in *.
      apply noRepeat_snoc; [exact Hn | congruence].
    + unfold closeGroups. cbn [groups currentYear currentCount].
      rewrite (expandGroups_app (groups st ++ _)). f_equal.
Qed.

Lemma closeGroups_fold l : forall st,
  1 <= currentCount st ->
  Forall (fun g => 1 <= groupCount g) (groups st) ->
  noRepeat (map year (closeGroups st)) ->
  let st' := fold_left groupStep l st in
  1 <= currentCount st'
  /\ Forall (fun g => 1 <= groupCount g) (groups st')
  /\ noRepeat (map year (closeGroups st'))
  /\ expandGroups (closeGroups st')
     = expandGroups (closeGroups st) ++ map getFullYear l.
Proof.
  induction l as [|m l IH]; intros st Hc Hg Hn; cbn [fold_left map].
  - rewrite app_nil_r. repeat split; assumption.
  - destruct (closeGroups_step st m Hc Hg Hn) as (Hc' & Hg' & Hn' & He').
    destruct (IH (groupStep st m) Hc' Hg' Hn') as (Hc2 & Hg2 & Hn2 & He2).
    cbv zeta in *. rewrite He2, He', <- app_assoc.
    repeat split; assumption.
Qed.

(** X18: the year header is a run-length encoding of the years of the
    months.  Expanding each group into [count] copies of its year gives
    back the years of [months] in order; every group has a count of at
    least 1; neighbouring groups carry different years; the counts add
    up to the number of months (so the header cells fill the row); no
    months give no groups. *)
Theorem yearGroups_run_length (months : list Date) :
  expandGroups (yearGroups months) = map getFullYear months
  /\ Forall (fun g => 1 <= groupCount g) (yearGroups months)
  /\ noRepeat (map year (yearGroups months))
  /\ fold_right (fun g acc => groupCount g + acc) 0 (yearGroups months)
     = Z.of_nat (List.length months)
  /\ (months = [] <-> yearGroups months = []).
Proof.
  assert (Hsum : forall gs, Forall (fun g => 1 <= groupCount g) gs ->
            fold_right (fun g acc => groupCount g + acc) 0 gs
            = Z.of_nat (List.length (expandGroups gs))).
  { induction 1 as [|g gs Hg _ IH]; [reflexivity|].
    cbn [fold_right]. unfold expandGroups in *. cbn [flat_map].
    rewrite length_app, repeat_length, IH. lia. }
  destruct months as [|m0 rest].
  - cbn. repeat split; try constructor; auto. intros i a b H. destruct i; discriminate H.
  - unfold yearGroups.
    set (st0 := mkGroupState [] (getFullYear m0) 0).
    change (fold_left groupStep (m0 :: rest) st0)
      with (fold_left groupStep rest (groupStep st0 m0)).
    assert (E0 : groupStep st0 m0 = mkGroupState [] (getFullYear m0) 1).
    { unfold groupStep, st0. cbn [currentYear currentCount groups].
      rewrite Z.eqb_refl. reflexivity. }
    rewrite E0.
    destruct (closeGroups_fold rest (mkGroupState [] (getFullYear m0) 1))
      as (Hc & Hg & Hn & He).
    + cbn. lia.
    + constructor.
    + intros i a b Ha Hb. destruct i; discriminate Hb.
    + cbv zeta in *.
      set (st := fold_left groupStep rest (mkGroupState [] (getFullYear m0) 1)) in *.
      destruct (Z.ltb_spec 0 (currentCount st)); [|lia].
      fold (closeGroups st).
      assert (Hall : Forall (fun g => 1 <= groupCount g) (closeGroups st)).
      { apply Forall_app. split; [exact Hg|]. constructor; [exact Hc|constructor]. }
      assert (He' : expandGroups (closeGroups st) = map getFullYear (m0 :: rest))
        by exact He.
      split; [exact He'|]. split; [exact Hall|]. split; [exact Hn|]. split.
      * rewrite (Hsum _ Hall), He', length_map. reflexivity.
      * split; [discriminate|]. unfold closeGroups.
        intros Hnil. destruct (groups st); discriminate Hnil.
Qed.

(** X19: the sidebar width stays between 140 and 500 pixels, whatever
    sequence of mouse-down, mouse-move and mouse-up events arrives. *)
Theorem sidebarWidth_in_range (events : list MouseEvent) :
  (140 <= sidebarWidth (fold_left handleEvent events initialSidebar) <= 500)%Q.
Proof.
  assert (H : forall st, (140 <= sidebarWidth st <= 500)%Q ->
            (140 <= sidebarWidth (fold_left handleEvent events st) <= 500)%Q).
  { induction events as [|e events IH]; intros st Hst; [exact Hst|].
    cbn [fold_left]. apply IH.
    destruct e as [x|x|]; cbn [handleEvent]; try exact Hst.
    unfold handleMouseMove. destruct (resizingRef st) as [r|]; [|exact Hst].
    cbn [sidebarWidth]. split.
    - apply Q.le_max_l.
    - apply Q.max_lub; [discriminate | apply Q.le_min_l]. }
  apply H. cbn. split; discriminate.
Qed.

Lemma moves_keep_ref xs : forall st,
  resizingRef (fold_left handleEvent (map mouseMove xs) st) = resizingRef st.
Proof.
  induction xs as [|x xs IH]; intros st; [reflexivity|].
  cbn [map fold_left handleEvent]. rewrite IH.
  unfold handleMouseMove. destruct (resizingRef st) eqn:E; [reflexivity | exact E].
Qed.

(** X20: a drag is measured from where it began.  After a mouse-down at
    [x0] on a sidebar of width [w0], any run of mouse moves that ends at
    [x] leaves the width at [w0 + (x - x0)] clamped to [140, 500],
    whatever the moves in between; after the mouse-up, moves change
    nothing. *)
Theorem drag_depends_on_last_position (st : Sidebar) (x0 x : Q) (xs ys : list Q) :
  let dragged :=
    fold_left handleEvent (map mouseMove (xs ++ [x])) (startResizing x0 st) in
  sidebarWidth dragged
  = Qmax 140 (Qmin 500 (sidebarWidth st + (x - x0)))
  /\ fold_left handleEvent (map mouseMove ys) (stopResizing dragged)
     = stopResizing dragged.
Proof.
  cbv zeta. split.
  - rewrite map_app, fold_left_app. cbn [map fold_left handleEvent].
    unfold handleMouseMove at 1. rewrite moves_keep_ref. reflexivity.
  - generalize (fold_left handleEvent (map mouseMove (xs ++ [x])) (startResizing x0 st)).
    intros d. induction ys as [|y ys IH]; [reflexivity|].
    cbn [map fold_left handleEvent]. exact IH.
Qed.
End HeaderExtras.

(* ================================================================= *)
(** ** The edit form and the list of subscriptions *)
(* ================================================================= *)

Module FormExtras.
Import DateFns Timeline EditModal AppState Scenarios.
Import DateFnsFacts RenewalFacts.

Lemma endFollowsStart_after_edit_aux (formData : FormData) (e : FormEvent) :
  enabled formData e = true ->
  endFollowsStart formData \/ e <> changeDate startDateField None ->
  endFollowsStart (applyEvent formData e).
Proof.
  intros Hen Hpre.
  destruct e as [[|] [d|]|checked|c]; cbn [applyEvent enabled] in *.
  - unfold handleDateChange, isValid, endFollowsStart.
    destruct (isAutoRenew formData) eqn:Ha.
    + unfold calculateCycleEndDate, isValid, setDates, isAutoRenew, cycleOrMonthly in *.
      cbn [negb f_autoRenew f_startDate f_endDate f_cycle].
      intros _ s [= <-]. destruct (f_cycle formData) as [[|]|]; reflexivity.
    + unfold setDates, isAutoRenew in *. cbn [f_autoRenew]. congruence.
  - destruct Hpre as [Hpre|Hpre]; [exact Hpre | congruence].
  - apply negb_true_iff in Hen. unfold handleDateChange, isValid, endFollowsStart,
      setDates, isAutoRenew in *. cbn [f_autoRenew]. congruence.
  - apply negb_true_iff in Hen. unfold handleDateChange, endFollowsStart,
      setDates, isAutoRenew in *. cbn [f_autoRenew]. congruence.
  - unfold handleAutoRenewChange, endFollowsStart, setAutoRenew, isAutoRenew,
      cycleOrMonthly, calculateCycleEndDate, isValid.
    cbn [f_autoRenew f_startDate f_endDate f_cycle negb].
    intros -> s ->. cbn [andb]. destruct (f_cycle formData) as [[|]|]; reflexivity.
  - unfold handleCycleChange, endFollowsStart, setCycle, isAutoRenew,
      cycleOrMonthly, calculateCycleEndDate, isValid.
    cbn [f_autoRenew f_startDate f_endDate f_cycle negb].
    intros Ha s ->. unfold isAutoRenew. rewrite Ha. cbn [andb].
    destruct c; reflexivity.
Qed.

(** X21: under auto-renewal the form keeps the end date at the start
    date plus one billing cycle.  Every edit the form allows (the
    end-date input is disabled under auto-renewal) leaves the form in a
    state where this holds, provided it held before or the edit is not
    the clearing of the start date, which the form ignores. *)
Theorem endFollowsStart_after_edit (formData : FormData) (e : FormEvent) :
  enabled formData e = true ->
  endFollowsStart formData \/ e <> changeDate startDateField None ->
  endFollowsStart (applyEvent formData e).
Proof. apply endFollowsStart_after_edit_aux. Qed.

Lemma endFollowsStart_after_edit_witness :
  endFollowsStart
    (applyEvent
       (mkForm (Some "n1"%string) (Some "New Subscription"%string) (Some 10000)
          (Some "KRW"%string)
          (Some MONTHLY) (Some (ymd 2024 1 31)) None (Some "#3b82f6"%string) None
          (Some true) (Some 0) (Some service))
       (changeCycle YEARLY)).
Proof.
  apply endFollowsStart_after_edit.
  - reflexivity.
  - right. discriminate.
Defined.

(** X22: when the form satisfies the rule above with auto-renewal on
    and a calendar start date, its end date is a calendar date strictly
    after the start date, namely the first renewal; the next renewal the
    timeline projects for that start date and cycle is never before
    it. *)
Theorem autoRenew_end_is_first_renewal
    (formData : FormData) (s today : Date) :
  endFollowsStart formData -> isAutoRenew formData = true ->
  f_startDate formData = Some s -> wfDate s ->
  exists e,
    f_endDate formData = Some e
    /\ e = advance (cycleOrMonthly formData) s
    /\ wfDate e
    /\ getTime s < getTime e
    /\ getTime e <= getTime (projectNextRenewal s (cycleOrMonthly formData) today).
Proof.
  intros Hinv Ha Hs Hwf.
  exists (advance (cycleOrMonthly formData) s).
  split; [exact (Hinv Ha s Hs)|]. split; [reflexivity|].
  split; [apply advance_wf; exact Hwf|]. split; [apply advance_lt; exact Hwf|].
  set (c := cycleOrMonthly formData).
  destruct (Z.le_gt_cases (getTime s) (getTime today)) as [Hle|Hgt].
  - destruct (projectNextRenewal_past s c today Hle) as (n & Hn & _ & -> & _).
    apply (renewals_mono c s Hwf 1 n). lia.
  - rewrite (projectNextRenewal_future s c today Hgt). lia.
Qed.

Lemma autoRenew_end_is_first_renewal_witness :
  exists e,
    f_endDate
      (applyEvent
         (mkForm (Some "n1"%string) (Some "New Subscription"%string) (Some 10000)
            (Some "KRW"%string)
            (Some MONTHLY) (Some (ymd 2024 1 31)) None (Some "#3b82f6"%string) None
            (Some true) (Some 0) (Some service))
         (changeCycle YEARLY)) = Some e
    /\ getTime (ymd 2024 1 31) < getTime e.
Proof.
  destruct (autoRenew_end_is_first_renewal
              (applyEvent
                 (mkForm (Some "n1"%string) (Some "New Subscription"%string)
                    (Some 10000) (Some "KRW"%string)
                    (Some MONTHLY) (Some (ymd 2024 1 31)) None
                    (Some "#3b82f6"%string) None
                    (Some true) (Some 0) (Some service))
                 (changeCycle YEARLY))
              (ymd 2024 1 31) scenarioToday)
    as (e & He & _ & _ & Hlt & _).
  - apply endFollowsStart_after_edit_aux; [reflexivity | right; discriminate].
  - reflexivity.
  - reflexivity.
  - vm_compute. reflexivity.
  - exists e. split; assumption.
Defined.

Lemma sameId_refl (sub : Subscription) : sameId (id sub) sub = true.
Proof. unfold sameId. apply String.eqb_refl. Qed.

Lemma find_sameId_map i (u : Subscription) l :
  find (sameId i)
    (map (fun sub => if sameId (id u) sub then u else sub) l)
  = if String.eqb (id u) i
    then match find (sameId (id u)) l with Some _ => Some u | None => None end
    else find (sameId i) l.
Proof.
  induction l as [|sub l IH]; cbn [map find].
  - destruct (String.eqb (id u) i); reflexivity.
  - destruct (sameId (id u) sub) eqn:Eu.
    + unfold sameId at 1. destruct (String.eqb_spec (id u) i) as [E|Hne].
      * reflexivity.
      * rewrite IH. destruct (String.eqb_spec (id u) i); [contradiction|].
        unfold sameId in Eu. apply String.eqb_eq in Eu.
        unfold sameId at 2. destruct (String.eqb_spec (id sub) i); [congruence|].
        reflexivity.
    + rewrite IH. destruct (String.eqb_spec (id u) i) as [E|Hne].
      * subst i. rewrite Eu. reflexivity.
      * reflexivity.
Qed.

Lemma find_app_none {A} (f : A -> bool) l l' :
  find f l = None -> find f (l ++ l') = find f l'.
Proof.
  induction l as [|a l IH]; cbn; [reflexivity|].
  destruct (f a); [discriminate | exact IH].
Qed.

Lemma find_app_some {A} (f : A -> bool) l l' x :
  find f l = Some x -> find f (l ++ l') = Some x.
Proof.
  induction l as [|a l IH]; cbn; [discriminate|].
  destruct (f a); [exact (fun H => H) | exact IH].
Qed.

(** X23 (App.tsx with the list in state): saving then looking up.  After [handleSave] the
    first entry with the saved id is the saved subscription; the lookup
    of every other id is unchanged; the list keeps its length when the
    id was present and grows by one, at the end, when it was not. *)
Theorem handleSave_lookup (updatedSub : Subscription) (prev : list Subscription) :
  find (sameId (id updatedSub)) (handleSave updatedSub prev) = Some updatedSub
  /\ (forall i, i <> id updatedSub ->
        find (sameId i) (handleSave updatedSub prev) = find (sameId i) prev)
  /\ (find (sameId (id updatedSub)) prev = None ->
      handleSave updatedSub prev = prev ++ [updatedSub])
  /\ (find (sameId (id updatedSub)) prev <> None ->
      List.length (handleSave updatedSub prev) = List.length prev).
Proof.
  unfold handleSave.
  destruct (find (sameId (id updatedSub)) prev) as [old|] eqn:Hfind.
  - split; [|split; [|split]].
    + rewrite find_sameId_map, String.eqb_refl, Hfind. reflexivity.
    + intros i Hi. rewrite find_sameId_map.
      destruct (String.eqb_spec (id updatedSub) i); [congruence | reflexivity].
    + discriminate.
    + intros _. apply length_map.
  - split; [|split; [|split]].
    + rewrite (find_app_none _ _ _ Hfind). cbn [find].
      rewrite sameId_refl. reflexivity.
    + intros i Hi. destruct (find (sameId i) prev) as [x|] eqn:Hx.
      * apply find_app_some. exact Hx.
      * rewrite (find_app_none _ _ _ Hx). cbn [find]. unfold sameId.
        destruct (String.eqb_spec (id updatedSub) i); [congruence | reflexivity].
    + reflexivity.
    + congruence.
Qed.

Lemma filter_none_id i (l : list Subscription) :
  find (sameId i) l = None -> filter (fun sub => negb (sameId i sub)) l = l.
Proof.
  induction l as [|sub l IH]; cbn [find filter]; [reflexivity|].
  destruct (sameId i sub); [discriminate|]. cbn [negb]. intros H. f_equal. auto.
Qed.

(** X24 (App.tsx with the list in state): deleting.  A confirmed [handleDelete] removes
    every entry with the id and keeps the others in order; a declined
    one changes nothing; saving a subscription with a new id and then
    deleting that id gives back the list as it was. *)
Theorem handleDelete_removes (i : string) (prev : list Subscription)
    (updatedSub : Subscription) :
  find (sameId i) (handleDelete true i prev) = None
  /\ (forall j, j <> i ->
        find (sameId j) (handleDelete true i prev) = find (sameId j) prev)
  /\ handleDelete false i prev = prev
  /\ (find (sameId (id updatedSub)) prev = None ->
      handleDelete true (id updatedSub) (handleSave updatedSub prev) = prev).
Proof.
  unfold handleDelete. split; [|split; [|split]].
  - induction prev as [|sub l IH]; cbn [filter find]; [reflexivity|].
    destruct (sameId i sub) eqn:E; cbn [negb find]; [exact IH|].
    rewrite E. exact IH.
  - intros j Hj. induction prev as [|sub l IH]; cbn [filter find]; [reflexivity|].
    destruct (sameId i sub) eqn:E; cbn [negb find].
    + assert (Hs : sameId j sub = false).
      { unfold sameId in *. apply String.eqb_eq in E. apply String.eqb_neq. congruence. }
      rewrite Hs. exact IH.
    + destruct (sameId j sub); [reflexivity | exact IH].
  - reflexivity.
  - intros Hnew. unfold handleSave. rewrite Hnew.
    rewrite filter_app. cbn [filter]. rewrite sameId_refl. cbn [negb].
    rewrite app_nil_r. apply filter_none_id. exact Hnew.
Qed.

Lemma handleDelete_removes_witness :
  handleDelete true (id scenarioB) (handleSave scenarioB [spanning]) = [spanning].
Proof.
  apply (handleDelete_removes (id scenarioB) [spanning] scenarioB).
  reflexivity.
Defined.
End FormExtras.

(* ================================================================= *)
(** ** The header and the today marker over a computed range          *)
(* ================================================================= *)

Module WindowExtras.
Import DateFns DateHelpers Calendar TimelineHeader Scenarios.
Import DateFnsFacts PercentFacts RangeExtras GeometryExtras.

Lemma isCurrentMonth_firstOfMonthAt now k :
  monthInRange now ->
  isCurrentMonth now (firstOfMonthAt k) = (monthIndex now =? k).
Proof.
  intros Hm. unfold isCurrentMonth, firstOfMonthAt, monthIndex, monthInRange in *.
  cbn [getFullYear getMonth].
  pose proof (Z.div_mod k 12 ltac:(lia)).
  pose proof (Z.mod_pos_bound k 12 ltac:(lia)).
  destruct (Z.eqb_spec (getFullYear now) (k / 12));
    destruct (Z.eqb_spec (getMonth now) (k mod 12));
    destruct (Z.eqb_spec (12 * getFullYear now + getMonth now) k);
    cbn [andb]; try reflexivity; lia.
Qed.

Lemma highlighted_months now from n :
  monthInRange now ->
  filter (isCurrentMonth now) (monthsFrom from n)
  = if (from <=? monthIndex now) && (monthIndex now <? from + Z.of_nat n)
    then [firstOfMonthAt (monthIndex now)] else [].
Proof.
  intros Hm. revert from. induction n as [|n IH]; intros from.
  - cbn [monthsFrom map seq filter].
    destruct (Z.leb_spec from (monthIndex now));
      destruct (Z.ltb_spec (monthIndex now) (from + Z.of_nat 0));
      cbn [andb]; try reflexivity; lia.
  - rewrite monthsFrom_succ. cbn [filter].
    rewrite isCurrentMonth_firstOfMonthAt, IH by exact Hm.
    destruct (Z.eqb_spec (monthIndex now) from) as [E|Hne];
      destruct (Z.leb_spec (from + 1) (monthIndex now));
      destruct (Z.ltb_spec (monthIndex now) (from + 1 + Z.of_nat n));
      destruct (Z.leb_spec from (monthIndex now));
      destruct (Z.ltb_spec (monthIndex now) (from + Z.of_nat (S n)));
      cbn [andb]; try lia; try reflexivity.
    rewrite E. reflexivity.
Qed.

(** X25: at most one month cell of the header is highlighted.  For the
    range of any call of [getTimelineRange], the months that pass the
    current-month test are the single first-of-month date of [today]'s
    month when that month lies between the start and end months, and
    none otherwise. *)
Theorem one_current_month fuel now today customStart customEnd :
  monthInRange now -> monthInRange today ->
  monthInRangeOpt customStart -> monthInRangeOpt customEnd ->
  let ms := startIndex now customStart in
  let me := endIndex now customEnd in
  Z.max 0 (me - ms + 1) < Z.of_nat fuel ->
  exists r,
    getTimelineRange fuel now customStart customEnd = Returns r
    /\ filter (isCurrentMonth today) (months r)
       = if (ms <=? monthIndex today) && (monthIndex today <=? me)
         then [firstOfMonthAt (monthIndex today)] else [].
Proof.
  intros Hnow Htoday Hs He ms me Hfuel.
  eexists. split; [apply getTimelineRange_closed_form; assumption|].
  cbn [months]. fold ms me. rewrite highlighted_months by exact Htoday.
  destruct (Z.leb_spec ms (monthIndex today));
    destruct (Z.ltb_spec (monthIndex today) (ms + Z.of_nat (Z.to_nat (me - ms + 1))));
    destruct (Z.leb_spec (monthIndex today) me);
    cbn [andb]; try reflexivity; lia.
Qed.

Lemma one_current_month_witness :
  exists r,
    getTimelineRange 16 scenarioToday None None = Returns r
    /\ filter (isCurrentMonth scenarioToday) (months r) = [ymd 2024 8 1].
Proof.
  destruct (one_current_month 16 scenarioToday scenarioToday None None)
    as (r & Hr & Hf).
  - vm_compute. split; [discriminate | reflexivity].
  - vm_compute. split; [discriminate | reflexivity].
  - exact I.
  - exact I.
  - vm_compute. reflexivity.
  - exists r. split; [exact Hr|]. rewrite Hf. vm_compute. reflexivity.
Defined.

Lemma getTime_in_month d :
  wfDate d ->
  getTime (firstOfMonthAt (monthIndex d)) <= getTime d
  /\ getTime d < getTime (firstOfMonthAt (monthIndex d + 1)).
Proof.
  intros Hd. destruct (wfDate_fields d Hd) as (Hm & Hday & Hms).
  rewrite !getTime_firstOfMonthAt. unfold getTime.
  rewrite (dayNumber_monthStart d Hm). fold (monthIndex d).
  rewrite monthStart_succ.
  destruct (div_mod_12 (getFullYear d) (getMonth d) Hm) as [Hy Hmo].
  fold (monthIndex d) in Hy, Hmo. rewrite Hy, Hmo.
  unfold msPerDay in *. lia.
Qed.

(** X26: in the default window the today marker lies inside the chart.
    When [getTimelineRange] is called without arguments at [now], the
    range starts before [now] and ends after it, and the position of
    [now] is strictly between 0 and 100. *)
Theorem today_inside_default_window fuel now :
  wfDate now -> (15 < fuel)%nat ->
  exists r,
    getTimelineRange fuel now None None = Returns r
    /\ getTime (start r) < getTime now < getTime (end_ r)
    /\ (0 < todayLeft now r < 100)%Q.
Proof.
  intros Hwf Hfuel.
  destruct (wfDate_fields now Hwf) as (Hm & _ & _).
  eexists. split.
  - apply getTimelineRange_closed_form; cbn [monthInRangeOpt startIndex endIndex];
      [exact Hm | exact I | exact I | lia].
  - cbn [start end_ startIndex endIndex]. unfold todayLeft. cbn [start end_].
    set (mi := monthIndex now).
    destruct (getTime_in_month now Hwf) as [Hlo Hhi]. fold mi in Hlo, Hhi.
    rewrite !getTime_firstOfMonthAt in *.
    pose proof (monthStart_lt (mi - 1) mi ltac:(lia)) as H1.
    pose proof (monthStart_lt (mi + 1) (mi + 13) ltac:(lia)) as H2.
    assert (Hbefore : getTime (firstOfMonthAt (mi - 1)) + msPerDay <= getTime now)
      by (rewrite getTime_firstOfMonthAt; unfold msPerDay in *; lia).
    assert (Hafter : getTime now + msPerDay <= getTime (firstOfMonthAt (mi + 13)))
      by (rewrite getTime_firstOfMonthAt; unfold msPerDay in *; lia).
    split; [unfold msPerDay in *; lia|].
    set (s := firstOfMonthAt (mi - 1)) in *. set (e := firstOfMonthAt (mi + 13)) in *.
    assert (Hs : wfDate s) by (apply wfDate_intro; cbn;
      [apply Z.mod_pos_bound; lia
      | pose proof (getDaysInMonth_bounds ((mi - 1) / 12) ((mi - 1) mod 12)); lia
      | unfold msPerDay; lia]).
    assert (He : wfDate e) by (apply wfDate_intro; cbn;
      [apply Z.mod_pos_bound; lia
      | pose proof (getDaysInMonth_bounds ((mi + 13) / 12) ((mi + 13) mod 12)); lia
      | unfold msPerDay; lia]).
    set (T := differenceInDays e s).
    assert (HT : T = monthStart (mi + 13) - monthStart (mi - 1))
      by apply differenceInDays_firstOfMonthAt.
    assert (Hd : 1 <= differenceInDays now s <= T - 1).
    { rewrite (differenceInDays_quot now s) by (apply wfDate_fields; assumption).
      unfold T. rewrite (differenceInDays_quot e s) by (apply wfDate_fields; assumption).
      unfold msPerDay in *. Z.to_euclidean_division_equations. nia. }
    unfold getPositionPercentage, date_ltb.
    destruct (Z.ltb_spec (getTime now) (getTime s)); [unfold msPerDay in *; lia|].
    assert (HTpos : 0 < T) by lia.
    pose proof (percent_mono 1 (differenceInDays now s) T ltac:(lia) HTpos) as Hge.
    pose proof (percent_mono (differenceInDays now s + 1) T T ltac:(lia) HTpos) as Hle.
    rewrite percent_plus, percent_full in Hle by exact HTpos.
    pose proof (percent_one_pos T HTpos). split; lra.
Qed.

Lemma today_inside_default_window_witness :
  exists r,
    getTimelineRange 16 scenarioToday None None = Returns r
    /\ (0 < todayLeft scenarioToday r < 100)%Q.
Proof.
  destruct (today_inside_default_window 16 scenarioToday) as (r & Hr & _ & Hpos).
  - vm_compute. reflexivity.
  - lia.
  - exists r. split; assumption.
Defined.
End WindowExtras.
